(** * Web-Scraper: the news collector of [scrab.py]

    A shallow embedding of the feed pipeline: text cleaning, date
    normalisation, language detection, the per-feed parser, the two
    deduplicating writers, the summary and [main], followed by the
    properties of the specification that were checked against it.

    Python strings are sequences of Unicode code points, so a [str] is a
    list of code points here; the regular expressions of [clean_text] are
    scanners over such lists.  Code that can raise returns a [result];
    files, the database and the log are fields of an explicit state. *)

From Stdlib Require Import List NArith ZArith Lia Bool Ascii String Sorted.
From Stdlib Require Import DecimalString.
From Stdlib Require Import Permutation.
Import ListNotations.

Local Open Scope N_scope.

(** ** Python strings *)

Definition pystr := list N.

(** A literal of the source, as code points. *)
Definition py (s : string) : pystr := map N_of_ascii (list_ascii_of_string s).

Definition pystr_eq_dec : forall a b : pystr, {a = b} + {a <> b} :=
  list_eq_dec N.eq_dec.

Definition pystr_eqb (a b : pystr) : bool :=
  if pystr_eq_dec a b then true else false.

Definition SPACE : N := 32.

(** [str.isspace] on one character, which is also what [\s] matches in a
    [str] pattern: the ASCII white space 9..13, 28..31 and 32, and the
    Unicode white space beyond. *)
Definition isspace (c : N) : bool :=
  ((9 <=? c) && (c <=? 13)) || ((28 <=? c) && (c <=? 32))
  || (c =? 133) || (c =? 160) || (c =? 5760)
  || ((8192 <=? c) && (c <=? 8202))
  || (c =? 8232) || (c =? 8233) || (c =? 8239) || (c =? 8287)
  || (c =? 12288).

(** The class [[^\x00-\x7F]]. *)
Definition non_ascii (c : N) : bool := 127 <? c.

Fixpoint lstrip (s : pystr) : pystr :=
  match s with
  | [] => []
  | c :: r => if isspace c then lstrip r else s
  end.

(** [text.strip()] *)
Definition strip (s : pystr) : pystr := rev (lstrip (rev (lstrip s))).

(** [re.sub(cls+, ' ', s)]: scanning from the left, every maximal run of
    characters of the class [cls] becomes one space.  [in_run] tells that
    the previous character belonged to the run being replaced. *)
Fixpoint sub_runs (cls : N -> bool) (in_run : bool) (s : pystr) : pystr :=
  match s with
  | [] => []
  | c :: r =>
      if cls c
      then (if in_run then sub_runs cls true r else SPACE :: sub_runs cls true r)
      else c :: sub_runs cls false r
  end.

Definition re_sub_plus (cls : N -> bool) (s : pystr) : pystr :=
  sub_runs cls false s.

(** Whether a string begins, or ends, with a character of the class. *)
Definition starts_in (cls : N -> bool) (s : pystr) : bool :=
  match s with
  | [] => false
  | c :: _ => cls c
  end.

Definition ends_in (cls : N -> bool) (s : pystr) : bool := starts_in cls (rev s).

(** The first assignment of [clean_text]:
    [re.sub(r'\s+', ' ', text.strip())]. *)
Definition collapse_whitespace (text : pystr) : pystr :=
  re_sub_plus isspace (strip text).

(** [clean_text] *)
Definition clean_text (text : pystr) : pystr :=
  match text with
  | [] => []
  | _ =>
      let text := collapse_whitespace text in
      let text := re_sub_plus non_ascii text in
      text
  end.

(** What the specification asks of a cleaned text. *)

Definition printable (c : N) : bool := (32 <=? c) && (c <=? 126).

Fixpoint has_double_space (s : pystr) : bool :=
  match s with
  | a :: ((b :: _) as r) => ((a =? SPACE) && (b =? SPACE)) || has_double_space r
  | _ => false
  end.

Definition TAB : N := 9.
Definition NEWLINE : N := 10.

(** The claimed shape: no tab, no newline, no two spaces in a row, only
    printable ASCII. *)
Definition well_cleaned (s : pystr) : bool :=
  forallb (fun c => negb (c =? TAB) && negb (c =? NEWLINE) && printable c) s
  && negb (has_double_space s).

(** What the code does guarantee of each character: it is in the 7-bit
    range, and the only white space left is the plain space. *)
Definition seven_bit_no_layout (c : N) : bool :=
  (c <? 128) && (negb (isspace c) || (c =? SPACE)).

(** ** Exceptions and results *)

(** The exception classes the program meets; all of them derive from
    [Exception], so [except Exception] catches each of them.  Interrupts
    of the process are not failures of a source and are not modelled. *)
Inductive exn_class :=
| ValueError | TypeError | KeyError | URLError
| LangDetectException | DatabaseError | OtherException.

(** A raised exception: its class and [str(e)]. *)
Record exn := mkExn { exn_cls : exn_class; exn_str : pystr }.

Inductive result (A : Type) :=
| Normal (a : A)
| Raise (e : exn).
Arguments Normal {A} a.
Arguments Raise {A} e.

Definition exn_class_eqb (a b : exn_class) : bool :=
  match a, b with
  | ValueError, ValueError | TypeError, TypeError | KeyError, KeyError
  | URLError, URLError | LangDetectException, LangDetectException
  | DatabaseError, DatabaseError | OtherException, OtherException => true
  | _, _ => false
  end.

(** [try: body  except <classes>: handler] *)
Definition try_except {A} (body : result A) (catches : exn -> bool)
    (handler : exn -> result A) : result A :=
  match body with
  | Normal a => Normal a
  | Raise e => if catches e then handler e else Raise e
  end.

Definition bare_except (e : exn) : bool := true.

(** ** Dates *)

(** An aware [datetime]: the wall-clock fields and the offset from UTC in
    seconds.  [strftime] below never looks at the offset. *)
Record datetime := mkDatetime {
  dt_year : N; dt_month : N; dt_day : N;
  dt_hour : N; dt_minute : N; dt_second : N;
  dt_utcoffset : Z
}.

(** The class invariant of [datetime]. *)
Definition valid_datetime (d : datetime) : bool :=
  (1 <=? dt_year d) && (dt_year d <=? 9999)
  && (1 <=? dt_month d) && (dt_month d <=? 12)
  && (1 <=? dt_day d) && (dt_day d <=? 31)
  && (dt_hour d <=? 23) && (dt_minute d <=? 59) && (dt_second d <=? 59).

Definition digit (d : N) : N := 48 + d.

(** [%m], [%d], [%H], [%M], [%S]: two digits, zero padded. *)
Definition pad2 (n : N) : pystr := [digit (n / 10); digit (n mod 10)].

(** Four digits, zero padded: the digits of a number from 1000 to 9999. *)
Definition pad4 (n : N) : pystr := pad2 (n / 100) ++ pad2 (n mod 100).

(** [str(n)]: a number in decimal, with no padding. *)
Definition str_of_N (n : N) : pystr :=
  py (NilZero.string_of_uint (N.to_uint n)).

(** [%Y] as the C library prints it: the year in decimal with no padding,
    four digits from the year 1000 on and fewer before it. *)
Definition year_digits (year : N) : pystr := str_of_N year.

Definition DASH : N := 45.
Definition COLON : N := 58.

(** [dt.strftime('%Y-%m-%d %H:%M:%S')] *)
Definition strftime (d : datetime) : pystr :=
  year_digits (dt_year d) ++ [DASH] ++ pad2 (dt_month d) ++ [DASH] ++ pad2 (dt_day d)
  ++ [SPACE]
  ++ pad2 (dt_hour d) ++ [COLON] ++ pad2 (dt_minute d) ++ [COLON]
  ++ pad2 (dt_second d).

Definition is_digit (c : N) : bool := (48 <=? c) && (c <=? 57).

(** The shape [YYYY-MM-DD HH:MM:SS]. *)
Definition canonical_date (s : pystr) : bool :=
  match s with
  | [y1; y2; y3; y4; a; m1; m2; b; d1; d2; sp; h1; h2; c1; i1; i2; c2; s1; s2] =>
      forallb is_digit [y1; y2; y3; y4; m1; m2; d1; d2; h1; h2; i1; i2; s1; s2]
      && (a =? DASH) && (b =? DASH) && (sp =? SPACE)
      && (c1 =? COLON) && (c2 =? COLON)
  | _ => false
  end.



Definition UNKNOWN_DATE : pystr := py "Unknown".

Definition catches_value_or_type_error (e : exn) : bool :=
  exn_class_eqb (exn_cls e) ValueError || exn_class_eqb (exn_cls e) TypeError.

(** Lines 86-89 of [parse_rss_feed], the date normaliser; [strptime] is
    [datetime.strptime(_, '%a, %d %b %Y %H:%M:%S %z')]. *)
Definition normalize_pub_date (strptime : pystr -> result datetime)
    (pub_date : pystr) : result pystr :=
  try_except
    (if negb (pystr_eqb pub_date UNKNOWN_DATE)
     then match strptime pub_date with
          | Normal d => Normal (strftime d)
          | Raise e => Raise e
          end
     else Normal UNKNOWN_DATE)
    catches_value_or_type_error
    (fun _ => Normal UNKNOWN_DATE).

(** ** Language detection *)

(** Line 23: [DetectorFactory.seed = 0]. *)
Definition DetectorFactory_seed : option N := Some 0.

(** [langdetect.detect]: the detector seeds its own random generator with
    the factory's seed before it samples; with no seed the generator is
    seeded from the entropy of the operating system, which differs from
    call to call.  [detect_with] is the detection algorithm itself, given
    the seed of its generator. *)
Definition detect_seeded (detect_with : N -> pystr -> result pystr)
    (factory_seed : option N) (entropy : N) (text : pystr) : result pystr :=
  match factory_seed with
  | Some s => detect_with s text
  | None => detect_with entropy text
  end.

Definition UNKNOWN_LANGUAGE : pystr := py "unknown".

(** [detect_language] *)
Definition detect_language (detect_with : N -> pystr -> result pystr)
    (entropy : N) (text : pystr) : result pystr :=
  try_except (detect_seeded detect_with DetectorFactory_seed entropy text)
    bare_except
    (fun _ => Normal UNKNOWN_LANGUAGE).

(** ** Feeds, entries and records *)

(** An element of [RSS_FEEDS]. *)
Record feed_info := mkFeed {
  fi_country : pystr; fi_source : pystr; fi_url : pystr
}.

(** An entry of a parsed feed: a dictionary whose keys may be absent and
    whose values, for the six keys read here, are strings.  A field is
    what [entry.get] finds under that key. *)
Record entry := mkEntry {
  e_title : option pystr; e_summary : option pystr;
  e_description : option pystr; e_published : option pystr;
  e_updated : option pystr; e_link : option pystr
}.

(** What [feedparser.parse] returns. *)
Record parsed_feed := mkParsed {
  bozo : bool; bozo_exception : pystr; entries : list entry
}.

(** A news item, the dictionary appended at lines 93-101. *)
Record news := mkNews {
  country : pystr; source : pystr; title : pystr; pub_date : pystr;
  description : pystr; url : pystr; language : pystr
}.

Inductive level := INFO | ERROR.

(** A line of [news_scraper.log]. *)
Record log_entry := mkLog { lvl : level; msg : pystr }.

(** [d.get(key, default)] *)
Definition get (field : option pystr) (default : pystr) : pystr :=
  match field with
  | Some v => v
  | None => default
  end.

Definition len {A} (l : list A) : N := N.of_nat (List.length l).

(** The tag [f"{feed_info['source']} ({feed_info['country']})"] that every
    log line of a feed carries. *)
Definition source_tag (fi : feed_info) : pystr :=
  fi_source fi ++ py " (" ++ fi_country fi ++ py ")".


Definition parse_error_msg (fi : feed_info) (detail : pystr) : pystr :=
  py "Error parsing feed " ++ source_tag fi ++ py ": " ++ detail.

Definition network_error_msg (fi : feed_info) (detail : pystr) : pystr :=
  py "Network error for " ++ source_tag fi ++ py ": " ++ detail.

Definition unexpected_error_msg (fi : feed_info) (detail : pystr) : pystr :=
  py "Unexpected error for " ++ source_tag fi ++ py ": " ++ detail.

Definition parsed_msg (fi : feed_info) (n : N) : pystr :=
  py "Successfully parsed " ++ str_of_N n ++ py " items from " ++ source_tag fi.

Section Parser.

(** The outside world of the parser: the fetch-and-parse of a URL by
    [feedparser.parse], [datetime.strptime] at the RFC-822 pattern, the
    detection algorithm of [langdetect], and the entropy the operating
    system would offer to the n-th detection of a feed. *)
Variable feedparser_parse : pystr -> result parsed_feed.
Variable strptime : pystr -> result datetime.
Variable detect_with : N -> pystr -> result pystr.
Variable os_entropy : nat -> N.

(** The body of the [for] loop, lines 83-101, for one entry; [n] is the
    number of items appended so far. *)
Definition parse_entry (fi : feed_info) (n : nat) (e : entry) : result news :=
  let title := clean_text (get (e_title e) (py "No Title")) in
  let description :=
    clean_text (get (e_summary e) (get (e_description e) (py "No Description"))) in
  let pub_date := get (e_published e) (get (e_updated e) UNKNOWN_DATE) in
  match normalize_pub_date strptime pub_date with
  | Raise x => Raise x
  | Normal pub_date =>
      let link := get (e_link e) (py "No URL") in
      match detect_language detect_with (os_entropy n)
              (title ++ py " " ++ description) with
      | Raise x => Raise x
      | Normal language =>
          Normal {| country := fi_country fi; source := fi_source fi;
                    title := title; pub_date := pub_date;
                    description := description; url := link;
                    language := language |}
      end
  end.

(** The [for] loop: [news_items] is extended in place, so what was
    appended before an exception stays in the list. *)
Fixpoint parse_entries (fi : feed_info) (es : list entry)
    (news_items : list news) : result unit * list news :=
  match es with
  | [] => (Normal tt, news_items)
  | e :: rest =>
      match parse_entry fi (List.length news_items) e with
      | Raise x => (Raise x, news_items)
      | Normal item => parse_entries fi rest (news_items ++ [item])
      end
  end.

(** The [try] block, lines 77-103: its outcome, [news_items] and the log
    when it is left. *)
Definition parse_rss_feed_try (fi : feed_info) (log : list log_entry)
    : result unit * list news * list log_entry :=
  match feedparser_parse (fi_url fi) with
  | Raise x => (Raise x, [], log)
  | Normal feed =>
      if bozo feed
      then (Normal tt, [],
            log ++ [mkLog ERROR (parse_error_msg fi (bozo_exception feed))])
      else
        match parse_entries fi (entries feed) [] with
        | (Raise x, news_items) => (Raise x, news_items, log)
        | (Normal _, news_items) =>
            (Normal tt, news_items,
             log ++ [mkLog INFO (parsed_msg fi (len news_items))])
        end
  end.

(** [parse_rss_feed]: the two [except] clauses, then [return news_items]. *)
Definition parse_rss_feed (fi : feed_info) (log : list log_entry)
    : result (list news) * list log_entry :=
  match parse_rss_feed_try fi log with
  | (Normal _, news_items, log) => (Normal news_items, log)
  | (Raise e, news_items, log) =>
      if exn_class_eqb (exn_cls e) URLError
      then (Normal news_items,
            log ++ [mkLog ERROR (network_error_msg fi (exn_str e))])
      else (Normal news_items,
            log ++ [mkLog ERROR (unexpected_error_msg fi (exn_str e))])
  end.

End Parser.

(** ** Data frames *)

(** The frames the program builds: column labels and rows. *)
Record DataFrame := mkFrame { df_columns : list pystr; df_rows : list news }.

Definition NEWS_COLUMNS : list pystr :=
  [py "country"; py "source"; py "title"; py "pub_date"; py "description";
   py "url"; py "language"].

(** [pd.DataFrame(data)] for a list of news dictionaries: the columns are
    the keys of the dictionaries, so an empty list gives a frame with no
    column at all. *)
Definition DataFrame_of (data : list news) : DataFrame :=
  {| df_columns := match data with [] => [] | _ => NEWS_COLUMNS end;
     df_rows := data |}.

(** [df.empty]: some axis has length 0. *)
Definition df_empty (df : DataFrame) : bool :=
  match df_columns df, df_rows df with
  | [], _ | _, [] => true
  | _, _ => false
  end.

Definition has_columns (labels : list pystr) (df : DataFrame) : bool :=
  forallb (fun c => existsb (pystr_eqb c) (df_columns df)) labels.

(** The deduplication key, the columns [['title', 'url']]. *)
Definition dedup_key (r : news) : pystr * pystr := (title r, url r).

Definition key_eqb (a b : pystr * pystr) : bool :=
  pystr_eqb (fst a) (fst b) && pystr_eqb (snd a) (snd b).

Definition seen_before (k : pystr * pystr) (seen : list (pystr * pystr)) : bool :=
  existsb (key_eqb k) seen.

(** [keep='first']: a row is dropped when an earlier row has its key. *)
Fixpoint keep_first (seen : list (pystr * pystr)) (rows : list news) : list news :=
  match rows with
  | [] => []
  | r :: rest =>
      if seen_before (dedup_key r) seen
      then keep_first seen rest
      else r :: keep_first (dedup_key r :: seen) rest
  end.

Definition KeyError_of (label : pystr) : exn :=
  mkExn KeyError (py "'" ++ label ++ py "'").

(** [df.drop_duplicates(subset=['title', 'url'], keep='first',
    inplace=True)]: pandas returns at once on an empty frame, before it
    looks the columns up; a missing column is a [KeyError] otherwise. *)
Definition drop_duplicates (df : DataFrame) : result DataFrame :=
  if df_empty df then Normal df
  else if has_columns [py "title"; py "url"] df
  then Normal {| df_columns := df_columns df;
                 df_rows := keep_first [] (df_rows df) |}
  else Raise (KeyError_of (py "title")).

(** The records a writer keeps of a batch. *)
Definition dedup (data : list news) : list news := keep_first [] data.

(** ** Files, database and log *)

(** A delimited text file: the header row and the rows under it, each a
    list of cells. *)
Record csv_file := mkCsv { csv_header : list pystr; csv_body : list (list pystr) }.

Definition news_cells (r : news) : list pystr :=
  [country r; source r; title r; pub_date r; description r; url r; language r].

(** What the program reads and writes: the log, the files by name, the
    rows of table [news] of each database by name ([None]: no such
    table), and the console. *)
Record world := mkWorld {
  w_log : list log_entry;
  w_csv : pystr -> option csv_file;
  w_db : pystr -> option (list news);
  w_stdout : list pystr
}.

Definition M (A : Type) : Type := world -> result A * world.

Definition ret {A} (a : A) : M A := fun w => (Normal a, w).

Definition bind {A B} (c : M A) (k : A -> M B) : M B :=
  fun w =>
    match c w with
    | (Normal a, w') => k a w'
    | (Raise e, w') => (Raise e, w')
    end.

Declare Scope py_scope.
Delimit Scope py_scope with py.
Notation "x <- c ;; k" := (bind c (fun x => k))
  (at level 61, c at next level, right associativity) : py_scope.
Notation "c ;;; k" := (bind c (fun _ => k))
  (at level 61, right associativity) : py_scope.

Definition lift {A} (r : result A) : M A := fun w => (r, w).

Definition logging (l : level) (m : pystr) : M unit :=
  fun w => (Normal tt,
            {| w_log := w_log w ++ [mkLog l m]; w_csv := w_csv w;
               w_db := w_db w; w_stdout := w_stdout w |}).

Definition print (line : pystr) : M unit :=
  fun w => (Normal tt,
            {| w_log := w_log w; w_csv := w_csv w; w_db := w_db w;
               w_stdout := w_stdout w ++ [line] |}).

Definition update {V} (f : pystr -> option V) (name : pystr) (v : V)
    : pystr -> option V :=
  fun n => if pystr_eqb n name then Some v else f n.

(** Writing a file replaces whatever it held. *)
Definition write_csv (filename : pystr) (f : csv_file) : M unit :=
  fun w => (Normal tt,
            {| w_log := w_log w; w_csv := update (w_csv w) filename f;
               w_db := w_db w; w_stdout := w_stdout w |}).

(** [df.to_csv(filename, index=False, encoding='utf-8')] *)
Definition to_csv (df : DataFrame) (filename : pystr) : M unit :=
  write_csv filename
    {| csv_header := df_columns df; csv_body := map news_cells (df_rows df) |}.

Definition QUOTE : N := 34.

(** What SQLite answers to the creation of a table without columns. *)
Definition NO_COLUMNS_ERROR : exn :=
  mkExn DatabaseError
    (py "near " ++ [QUOTE] ++ py ")" ++ [QUOTE] ++ py ": syntax error").

(** [df.to_sql('news', conn, if_exists='append', index=False)] and the
    commit: the table is created from the columns of the frame when it is
    missing, which SQLite refuses for a frame without columns; the rows go
    after those the table holds.  The world records the tables and their
    rows; the connection of line 120 and the database file it opens,
    which exists from then on with or without a table, are outside it. *)
Definition to_sql_append (df : DataFrame) (db_name : pystr) : M unit :=
  fun w =>
    match w_db w db_name, df_columns df with
    | None, [] => (Raise NO_COLUMNS_ERROR, w)
    | held, _ =>
        (Normal tt,
         {| w_log := w_log w; w_csv := w_csv w;
            w_db := update (w_db w) db_name
                      (match held with Some old => old | None => [] end
                       ++ df_rows df);
            w_stdout := w_stdout w |})
    end.

Definition saved_msg (n : N) (target : pystr) : pystr :=
  py "Saved " ++ str_of_N n ++ py " news items to " ++ target.

Local Open Scope py_scope.

(** [save_to_csv] *)
Definition save_to_csv (data : list news) (filename : pystr) : M N :=
  df <- lift (drop_duplicates (DataFrame_of data)) ;;
  to_csv df filename ;;;
  logging INFO (saved_msg (len (df_rows df)) filename) ;;;
  ret (len (df_rows df)).

(** [save_to_sqlite] *)
Definition save_to_sqlite (data : list news) (db_name : pystr) : M N :=
  df <- lift (drop_duplicates (DataFrame_of data)) ;;
  to_sql_append df db_name ;;;
  logging INFO (saved_msg (len (df_rows df)) db_name) ;;;
  ret (len (df_rows df)).

(** ** The summary *)

(** An element of the list [generate_summary] returns. *)
Record summary_row := mkSummary {
  s_country : pystr; s_source : pystr; total_articles : N;
  historical_data : pystr
}.

Definition HISTORICAL_DATA : pystr :=
  py "Varies by feed (up to 1 year where available)".

(** The grouping key, the columns [['country', 'source']]. *)
Definition group_key (r : news) : pystr * pystr := (country r, source r).

(** The order of [str]: code point by code point, a prefix first. *)
Fixpoint pystr_compare (a b : pystr) : comparison :=
  match a, b with
  | [], [] => Eq
  | [], _ :: _ => Lt
  | _ :: _, [] => Gt
  | x :: a', y :: b' =>
      match x ?= y with
      | Eq => pystr_compare a' b'
      | c => c
      end
  end.

(** The order of the group labels: by country, then by source. *)
Definition key_compare (k1 k2 : pystr * pystr) : comparison :=
  match pystr_compare (fst k1) (fst k2) with
  | Eq => pystr_compare (snd k1) (snd k2)
  | c => c
  end.

Definition key_lt (k1 k2 : pystr * pystr) : Prop := key_compare k1 k2 = Lt.

(** The sorted labels of the groups seen so far, with one more label. *)
Fixpoint insert_key (k : pystr * pystr) (ks : list (pystr * pystr))
    : list (pystr * pystr) :=
  match ks with
  | [] => [k]
  | h :: t =>
      match key_compare k h with
      | Lt => k :: ks
      | Eq => ks
      | Gt => h :: insert_key k t
      end
  end.

(** The labels of [df.groupby(['country', 'source'])], which sorts them. *)
Definition group_keys (rows : list news) : list (pystr * pystr) :=
  fold_right insert_key [] (map group_key rows).

(** [.size()] of one group: the rows that carry its label. *)
Definition group_size (k : pystr * pystr) (rows : list news) : N :=
  len (filter (fun r => key_eqb (group_key r) k) rows).

(** [df.groupby(['country', 'source']).size().reset_index(name='total_articles')];
    grouping by a label that is not a column is a [KeyError]. *)
Definition groupby_size (df : DataFrame) : result (list (pystr * pystr * N)) :=
  if has_columns [py "country"; py "source"] df
  then Normal (map (fun k => (k, group_size k (df_rows df)))
                   (group_keys (df_rows df)))
  else Raise (KeyError_of (py "country")).

(** [generate_summary] *)
Definition generate_summary (data : list news) : result (list summary_row) :=
  match groupby_size (DataFrame_of data) with
  | Raise e => Raise e
  | Normal summary =>
      Normal (map (fun g => {| s_country := fst (fst g); s_source := snd (fst g);
                               total_articles := snd g;
                               historical_data := HISTORICAL_DATA |})
                  summary)
  end.

Definition summary_key (s : summary_row) : pystr * pystr :=
  (s_country s, s_source s).

(** ** The program *)

Definition RSS_FEEDS : list feed_info :=
  [ mkFeed (py "United Kingdom") (py "BBC News") (py "http://feeds.bbci.co.uk/news/rss.xml");
    mkFeed (py "United States") (py "CNN") (py "http://rss.cnn.com/rss/edition.rss");
    mkFeed (py "Qatar") (py "Al Jazeera") (py "https://www.aljazeera.com/xml/rss/all.xml");
    mkFeed (py "Japan") (py "NHK") (py "https://www3.nhk.or.jp/rss/news/cat0.xml");
    mkFeed (py "India") (py "The Times of India") (py "https://timesofindia.indiatimes.com/rssfeedstopstories.cms");
    mkFeed (py "Singapore") (py "The Straits Times") (py "https://www.straitstimes.com/news/rss");
    mkFeed (py "Malaysia") (py "The Star") (py "https://www.thestar.com.my/rss");
    mkFeed (py "Indonesia") (py "Jakarta Post") (py "https://www.thejakartapost.com/feed");
    mkFeed (py "South Korea") (py "Yonhap News") (py "https://en.yna.co.kr/rss");
    mkFeed (py "China") (py "China Daily") (py "http://www.chinadaily.com.cn/rss/world_rss.xml");
    mkFeed (py "Australia") (py "ABC News") (py "https://www.abc.net.au/news/feed");
    mkFeed (py "Germany") (py "Deutsche Welle") (py "https://rss.dw.com/xml/rss-en-world");
    mkFeed (py "France") (py "France 24") (py "https://www.france24.com/en/rss");
    mkFeed (py "Brazil") (py "Folha de S.Paulo") (py "https://www1.folha.uol.com.br/internacional/en/rss091.xml");
    mkFeed (py "South Africa") (py "News24") (py "https://www.news24.com/news24/rss");
    mkFeed (py "Nigeria") (py "Punch Nigeria") (py "https://punchng.com/feed/");
    mkFeed (py "Canada") (py "CBC News") (py "https://www.cbc.ca/webfeed/rss/rss-topstories");
    mkFeed (py "Russia") (py "TASS") (py "https://tass.com/rss/v2.xml");
    mkFeed (py "Mexico") (py "El Universal") (py "https://www.eluniversal.com.mx/rss");
    mkFeed (py "Egypt") (py "Ahram Online") (py "http://english.ahram.org.eg/RSS.aspx");
    mkFeed (py "Turkey") (py "Hurriyet Daily News") (py "https://www.hurriyetdailynews.com/rss");
    mkFeed (py "Pakistan") (py "Dawn") (py "https://www.dawn.com/feeds/home");
    mkFeed (py "Argentina") (py "Clarin") (py "https://www.clarin.com/rss.html");
    mkFeed (py "Thailand") (py "Bangkok Post") (py "https://www.bangkokpost.com/rss");
    mkFeed (py "Kenya") (py "The Standard") (py "https://www.standardmedia.co.ke/rss") ].

Definition NEWS_CSV : pystr := py "news_data.csv".
Definition NEWS_DB : pystr := py "news_data.db".
Definition SUMMARY_CSV : pystr := py "news_summary.csv".

Definition SUMMARY_COLUMNS : list pystr :=
  [py "country"; py "source"; py "total_articles"; py "historical_data"].

Definition summary_cells (s : summary_row) : list pystr :=
  [s_country s; s_source s; str_of_N (total_articles s); historical_data s].

(** [pd.DataFrame(summary).to_csv('news_summary.csv', index=False,
    encoding='utf-8')] *)
Definition summary_to_csv (summary : list summary_row) : M unit :=
  write_csv SUMMARY_CSV
    {| csv_header := match summary with [] => [] | _ => SUMMARY_COLUMNS end;
       csv_body := map summary_cells summary |}.

Definition summary_line (s : summary_row) : pystr :=
  py "Country: " ++ s_country s ++ py ", Source: " ++ s_source s
  ++ py ", Articles: " ++ str_of_N (total_articles s)
  ++ py ", Historical Data: " ++ historical_data s.

Fixpoint print_all (lines : list pystr) : M unit :=
  match lines with
  | [] => ret tt
  | l :: rest => print l ;;; print_all rest
  end.

Section Program.

Variable feedparser_parse : pystr -> result parsed_feed.
Variable strptime : pystr -> result datetime.
Variable detect_with : N -> pystr -> result pystr.
(** The entropy offered during the i-th feed to its n-th detection. *)
Variable os_entropy : nat -> nat -> N.
(** [str(summary)], the rendering of a list of dictionaries. *)
Variable str_of_summary : list summary_row -> pystr.

(** [parse_rss_feed] with the log file as its state. *)
Definition parse_rss_feed_io (i : nat) (fi : feed_info) : M (list news) :=
  fun w =>
    let '(r, log) :=
      parse_rss_feed feedparser_parse strptime detect_with (os_entropy i)
        fi (w_log w) in
    (r, {| w_log := log; w_csv := w_csv w; w_db := w_db w;
           w_stdout := w_stdout w |}).

(** The loop of [main], lines 139-143; [time.sleep(1)] changes nothing
    that is modelled.  [i] is the position of the next feed. *)
Fixpoint main_collect (feeds : list feed_info) (i : nat)
    (all_news : list news) : M (list news) :=
  match feeds with
  | [] => ret all_news
  | feed :: rest =>
      logging INFO (py "Processing feed: " ++ source_tag feed) ;;;
      news_items <- parse_rss_feed_io i feed ;;
      main_collect rest (S i) (all_news ++ news_items)
  end.

(** The records the i-th feed contributes, and the list the loop
    accumulates from position [i] on. *)
Definition feed_news (i : nat) (fi : feed_info) : list news :=
  match fst (parse_rss_feed feedparser_parse strptime detect_with
               (os_entropy i) fi []) with
  | Normal news_items => news_items
  | Raise _ => []
  end.

Fixpoint collected (feeds : list feed_info) (i : nat) : list news :=
  match feeds with
  | [] => []
  | feed :: rest => feed_news i feed ++ collected rest (S i)
  end.

(** Lines 146-161 of [main]: the writers, the summary and the report. *)
Definition main_persist (all_news : list news) (feed_count : N) : M unit :=
  total_csv <- save_to_csv all_news NEWS_CSV ;;
  total_db <- save_to_sqlite all_news NEWS_DB ;;
  summary <- lift (generate_summary all_news) ;;
  logging INFO (py "Summary: " ++ str_of_summary summary) ;;;
  summary_to_csv summary ;;;
  logging INFO (py "Summary saved to news_summary.csv") ;;;
  print (py "Scraped " ++ str_of_N (len all_news) ++ py " news items from "
         ++ str_of_N feed_count ++ py " feeds.") ;;;
  print (py "Saved " ++ str_of_N total_csv ++ py " unique items to CSV and "
         ++ str_of_N total_db ++ py " to SQLite.") ;;;
  print (py "Summary of collected data:") ;;;
  print_all (map summary_line summary).

(** [main] *)
Definition main : M unit :=
  all_news <- main_collect RSS_FEEDS 0 [] ;;
  main_persist all_news (len RSS_FEEDS).

End Program.

(** What [generate_summary] returns for a frame that has its columns. *)
Definition summary_rows (data : list news) : list summary_row :=
  map (fun k => {| s_country := fst k; s_source := snd k;
                   total_articles := group_size k data;
                   historical_data := HISTORICAL_DATA |})
      (group_keys data).

Definition sum_N (l : list N) : N := fold_right N.add 0 l.

(** The rows table [news] holds, none when it does not exist. *)
Definition held_rows (w : world) (db_name : pystr) : list news :=
  match w_db w db_name with
  | Some rows => rows
  | None => []
  end.

Definition csv_row_count (w : world) (filename : pystr) : N :=
  match w_csv w filename with
  | Some f => len (csv_body f)
  | None => 0
  end.

Definition db_row_count (w : world) (db_name : pystr) : N :=
  match w_db w db_name with
  | Some rows => len rows
  | None => 0
  end.

(** ** A sample world

    Small stand-ins for the library calls, on which the statements below
    are exercised. *)

Definition SAMPLE_DATE : pystr := py "Mon, 01 Jan 2024 10:30:00 +0100".

Definition sample_strptime (s : pystr) : result datetime :=
  if pystr_eqb s SAMPLE_DATE
  then Normal (mkDatetime 2024 1 1 10 30 0 3600)
  else Raise (mkExn ValueError (py "time data does not match format")).



Definition sample_detect_with (seed : N) (text : pystr) : result pystr :=
  match text with
  | [] => Raise (mkExn LangDetectException (py "No features in text."))
  | _ => Normal (py "en")
  end.

Definition sample_entry : entry :=
  {| e_title := Some (py "Rain  again"); e_summary := None;
     e_description := Some (py "More rain"); e_published := Some SAMPLE_DATE;
     e_updated := None; e_link := Some (py "http://a/1") |}.

Definition sample_feedparser_parse (url : pystr) : result parsed_feed :=
  if pystr_eqb url (py "http://a/rss")
  then Normal (mkParsed false [] [sample_entry; sample_entry])
  else if pystr_eqb url (py "http://b/rss")
  then Normal (mkParsed true (py "not well-formed") [sample_entry])
  else Raise (mkExn URLError (py "Name or service not known")).

Definition sample_feed_a : feed_info := mkFeed (py "A-land") (py "A News") (py "http://a/rss").
Definition sample_feed_b : feed_info := mkFeed (py "B-land") (py "B News") (py "http://b/rss").
Definition sample_feed_c : feed_info := mkFeed (py "C-land") (py "C News") (py "http://c/rss").

Definition sample_news (c s t u d : string) : news :=
  mkNews (py c) (py s) (py t) (py "Unknown") (py d) (py u) (py "en").

(** Two records with the same title and URL and different descriptions,
    then records of other sources. *)
Definition sample_batch : list news :=
  [ sample_news "B-land" "B News" "Rain" "http://b/1" "first";
    sample_news "B-land" "B News" "Rain" "http://b/1" "second";
    sample_news "A-land" "Z News" "Sun" "http://z/1" "third";
    sample_news "A-land" "A News" "Sun" "http://a/1" "fourth" ].

(** A network on which every feed has one entry. *)
Definition sample_network (url : pystr) : result parsed_feed :=
  Normal (mkParsed false [] [sample_entry]).

Definition empty_world : world :=
  {| w_log := []; w_csv := fun _ => None; w_db := fun _ => None;
     w_stdout := [] |}.

(** ** Shapes of cleaned text *)

(** A 7-bit character that is not white space: what [clean_text] never
    touches. *)
Definition plain_char (c : N) : bool := (c <? 128) && negb (isspace c).

(** [tidy_from prev s]: every white space of [s] is a plain space that
    follows a character which is not white space, and [s] does not end
    with one; [prev] tells that the character before [s] is white space. *)
Fixpoint tidy_from (prev : bool) (s : pystr) : bool :=
  match s with
  | [] => negb prev
  | c :: r =>
      if isspace c
      then (c =? SPACE) && negb prev && tidy_from true r
      else tidy_from false r
  end.

(** Words separated by single spaces, with no space at either end. *)
Definition tidy (s : pystr) : bool :=
  match s with
  | [] => true
  | _ => tidy_from true s
  end.


(** ** Records and feeds *)

(** The shape of a record built by the parser: cleaned title and
    description, and a publication date that is the sentinel or the
    rendering of a valid date, in the canonical form from the year 1000
    on. *)
Definition well_formed_news (r : news) : Prop :=
  forallb seven_bit_no_layout (title r) = true
  /\ forallb seven_bit_no_layout (description r) = true
  /\ (pub_date r = UNKNOWN_DATE
      \/ exists d,
           valid_datetime d = true /\ pub_date r = strftime d
           /\ (1000 <= dt_year d -> canonical_date (pub_date r) = true)).

(** A feed whose fetch raises or whose document is flagged. *)
Definition feed_fails (feedparser_parse : pystr -> result parsed_feed)
    (fi : feed_info) : bool :=
  match feedparser_parse (fi_url fi) with
  | Raise _ => true
  | Normal feed => bozo feed
  end.

(** A [strptime] that fails in an unforeseen way on one string. *)
Definition faulty_strptime (s : pystr) : result datetime :=
  if pystr_eqb s (py "boom")
  then Raise (mkExn OtherException (py "internal error"))
  else sample_strptime s.

Definition faulty_entry : entry :=
  {| e_title := Some (py "Late"); e_summary := None; e_description := None;
     e_published := Some (py "boom"); e_updated := None; e_link := None |}.

Definition faulty_network (url : pystr) : result parsed_feed :=
  Normal (mkParsed false [] [sample_entry; faulty_entry; sample_entry]).


(** ** Batches and runs *)

(** [subsequence l1 l2]: [l1] is [l2] with some elements left out, the
    others in their order. *)
Inductive subsequence {A : Type} : list A -> list A -> Prop :=
| subsequence_nil : subsequence [] []
| subsequence_skip x l1 l2 : subsequence l1 l2 -> subsequence l1 (x :: l2)
| subsequence_keep x l1 l2 : subsequence l1 l2 -> subsequence (x :: l1) (x :: l2).

(** [save_to_sqlite] called [k] times in a row with the same batch, as
    [k] runs of the program on the same records do. *)
Fixpoint save_to_sqlite_times (k : nat) (data : list news) (db_name : pystr)
    : M unit :=
  match k with
  | O => ret tt
  | S k' => save_to_sqlite data db_name ;;; save_to_sqlite_times k' data db_name
  end.


(** [world_extends w w']: from [w] to [w'] the log and the console only
    grew, table [news] of the program's database only gained rows, and
    nothing but the program's two files and its database changed. *)
Definition world_extends (w w' : world) : Prop :=
  (exists lines, w_log w' = w_log w ++ lines)
  /\ (exists lines, w_stdout w' = w_stdout w ++ lines)
  /\ (exists rows, held_rows w' NEWS_DB = held_rows w NEWS_DB ++ rows)
  /\ (forall f, pystr_eqb f NEWS_CSV = false -> pystr_eqb f SUMMARY_CSV = false ->
                w_csv w' f = w_csv w f)
  /\ (forall d, pystr_eqb d NEWS_DB = false -> w_db w' d = w_db w d).



(** How a record reads off its entry: the placeholders of absent keys,
    the summary before the description, the publication date before the
    update date. *)
Definition record_of_entry (strptime : pystr -> result datetime)
    (detect_with : N -> pystr -> result pystr)
    (fi : feed_info) (e : entry) (r : news) : Prop :=
  country r = fi_country fi /\ source r = fi_source fi
  /\ title r = clean_text (get (e_title e) (py "No Title"))
  /\ description r
     = clean_text (get (e_summary e) (get (e_description e) (py "No Description")))
  /\ url r = get (e_link e) (py "No URL")
  /\ normalize_pub_date strptime
       (get (e_published e) (get (e_updated e) UNKNOWN_DATE))
     = Normal (pub_date r)
  /\ detect_language detect_with 0 (title r ++ py " " ++ description r)
     = Normal (language r).

(** * Properties *)

(** ** Text cleaning *)

Section SubRuns.

Variable cls : N -> bool.

(** A character of the result is the inserted space or a character of
    the input outside the class. *)
Lemma sub_runs_In (s : pystr) : forall in_run c,
  In c (sub_runs cls in_run s) -> c = SPACE \/ (In c s /\ cls c = false).
Proof.
  induction s as [|x s IH]; intros in_run c Hc; simpl in *.
  - contradiction.
  - destruct (cls x) eqn:Hx.
    + destruct in_run; simpl in Hc.
      * apply IH in Hc. intuition.
      * destruct Hc as [<-|Hc]; [now left|]. apply IH in Hc. intuition.
    + destruct Hc as [<-|Hc]; [right; auto|]. apply IH in Hc. intuition.
Qed.

(** Nothing changes where no character is in the class. *)
Lemma sub_runs_outside (s : pystr) : forall in_run,
  forallb (fun c => negb (cls c)) s = true -> sub_runs cls in_run s = s.
Proof.
  induction s as [|x s IH]; intros in_run H; simpl in *; [reflexivity|].
  apply andb_prop in H as [Hx Hs]. apply negb_true_iff in Hx. rewrite Hx.
  now rewrite IH.
Qed.

(** After a character outside the class the scan starts afresh. *)
Lemma sub_runs_snoc_app (a : pystr) : forall c in_run x,
  cls c = false ->
  sub_runs cls in_run ((a ++ [c]) ++ x)
  = sub_runs cls in_run (a ++ [c]) ++ sub_runs cls false x.
Proof.
  induction a as [|y a IH]; intros c in_run x Hc; simpl.
  - now rewrite Hc.
  - destruct (cls y), in_run; simpl; now rewrite IH.
Qed.

Lemma sub_runs_app (a x : pystr) :
  ends_in cls a = false ->
  sub_runs cls false (a ++ x) = sub_runs cls false a ++ sub_runs cls false x.
Proof.
  unfold ends_in. destruct (rev a) as [|c ra] eqn:Hr; intros H.
  - apply (f_equal (@rev N)) in Hr. rewrite rev_involutive in Hr.
    now subst a.
  - apply (f_equal (@rev N)) in Hr. rewrite rev_involutive in Hr.
    simpl in Hr, H. subst a. now apply sub_runs_snoc_app.
Qed.

(** Inside a run nothing is emitted. *)
Lemma sub_runs_in_run (r x : pystr) :
  forallb cls r = true -> sub_runs cls true (r ++ x) = sub_runs cls true x.
Proof.
  induction r as [|c r IH]; simpl; intros H; [reflexivity|].
  apply andb_prop in H as [Hc Hr]. rewrite Hc. auto.
Qed.

Lemma sub_runs_restart (x : pystr) :
  starts_in cls x = false -> sub_runs cls true x = sub_runs cls false x.
Proof.
  destruct x as [|c x]; simpl; intros H; [reflexivity|]. now rewrite H.
Qed.

(** A whole run, delimited on both sides, becomes exactly one space. *)
Lemma sub_runs_one_run (a r b : pystr) :
  r <> [] -> forallb cls r = true ->
  ends_in cls a = false -> starts_in cls b = false ->
  sub_runs cls false (a ++ r ++ b)
  = sub_runs cls false a ++ [SPACE] ++ sub_runs cls false b.
Proof.
  intros Hne Hr Ha Hb. rewrite sub_runs_app by assumption. f_equal.
  destruct r as [|c r]; [congruence|]. simpl in *.
  apply andb_prop in Hr as [Hc Hr]. rewrite Hc. f_equal.
  rewrite sub_runs_in_run by assumption. now apply sub_runs_restart.
Qed.

End SubRuns.

Lemma clean_text_chars (s : pystr) (c : N) :
  In c (clean_text s) -> seven_bit_no_layout c = true.
Proof.
  destruct s as [|x s]; [contradiction|].
  unfold clean_text, re_sub_plus, collapse_whitespace.
  generalize (strip (x :: s)). intros t Hc.
  apply sub_runs_In in Hc as [->|[Hc Hascii]]; [reflexivity|].
  apply sub_runs_In in Hc as [->|[_ Hsp]]; [reflexivity|].
  unfold seven_bit_no_layout, non_ascii in *.
  apply andb_true_intro; split; [|now rewrite Hsp].
  apply N.ltb_ge in Hascii. apply N.ltb_lt. lia.
Qed.

(** C2, as stated, fails: a bell character survives the cleaning and a
    non-ASCII letter between two spaces leaves three spaces in a row. *)
Lemma clean_text_keeps_control_and_space_runs :
  clean_text [7; 32; 233; 32; 98] = [7; 32; 32; 32; 98]
  /\ well_cleaned (clean_text [7; 32; 233; 32; 98]) = false
  /\ has_double_space (clean_text [7; 32; 233; 32; 98]) = true
  /\ forallb printable (clean_text [7; 32; 233; 32; 98]) = false.
Proof. repeat split; reflexivity. Qed.

(** C2, amended: every character of [clean_text s] is in the 7-bit range
    0..127 and is no white space other than the plain space (so no tab and
    no newline); and each maximal run of non-ASCII characters left by the
    white-space pass is replaced by exactly one space, the 7-bit
    characters around it being kept as they are. *)
Theorem clean_text_seven_bit_and_runs (s : pystr) :
  forallb seven_bit_no_layout (clean_text s) = true
  /\ (forall a r b,
        collapse_whitespace s = a ++ r ++ b ->
        r <> [] -> forallb non_ascii r = true ->
        ends_in non_ascii a = false -> starts_in non_ascii b = false ->
        clean_text s
        = re_sub_plus non_ascii a ++ [SPACE] ++ re_sub_plus non_ascii b)
  /\ (forallb (fun c => negb (non_ascii c)) (collapse_whitespace s) = true ->
      clean_text s = collapse_whitespace s).
Proof.
  split; [|split].
  - apply forallb_forall. intros c. apply clean_text_chars.
  - intros a r b Hs Hne Hr Ha Hb.
    destruct s as [|x s].
    + destruct a; [destruct r; [congruence|discriminate]|discriminate].
    + unfold clean_text, re_sub_plus. rewrite Hs.
      now apply sub_runs_one_run.
  - intros H. destruct s as [|x s]; [reflexivity|].
    unfold clean_text, re_sub_plus. now apply sub_runs_outside.
Qed.

Lemma clean_text_seven_bit_and_runs_witness :
  forallb seven_bit_no_layout (clean_text [97; 9; 233; 233; 98]) = true
  /\ clean_text [97; 9; 233; 233; 98] = [97; 32] ++ [SPACE] ++ [98].
Proof.
  destruct (clean_text_seven_bit_and_runs [97; 9; 233; 233; 98])
    as [Hchars [Hrun _]].
  split; [exact Hchars|].
  apply (Hrun [97; 32] [233; 233] [98]);
    [reflexivity | discriminate | reflexivity | reflexivity | reflexivity].
Defined.

(** C7: cleaning twice is not cleaning once.  The space that replaces a
    non-ASCII run is put in after the trimming and the collapsing, so a
    second pass trims or collapses it. *)
Theorem clean_text_not_idempotent :
  clean_text [233] = [SPACE]
  /\ clean_text (clean_text [233]) = []
  /\ clean_text (clean_text [233]) <> clean_text [233]
  /\ clean_text [97; 32; 233; 32; 98] = [97; 32; 32; 32; 98]
  /\ clean_text (clean_text [97; 32; 233; 32; 98]) = [97; 32; 98].
Proof. repeat split; try reflexivity. discriminate. Qed.

Lemma pystr_eqb_eq_true (a b : pystr) : pystr_eqb a b = true -> a = b.
Proof. unfold pystr_eqb. now destruct (pystr_eq_dec a b). Qed.

(** ** Dates *)

Ltac n_arith := zify; Z.to_euclidean_division_equations; lia.

Lemma digit_is_digit (d : N) : d <= 9 -> is_digit (digit d) = true.
Proof.
  intros H. unfold is_digit, digit.
  apply andb_true_intro; split; apply N.leb_le; lia.
Qed.

Lemma pad2_digits (n : N) : n <= 99 -> forallb is_digit (pad2 n) = true.
Proof.
  intros H. unfold pad2. cbn [forallb].
  rewrite !digit_is_digit by n_arith. reflexivity.
Qed.


Lemma valid_datetime_bounds (d : datetime) :
  valid_datetime d = true ->
  dt_year d <= 9999 /\ dt_month d <= 99 /\ dt_day d <= 99
  /\ dt_hour d <= 99 /\ dt_minute d <= 99 /\ dt_second d <= 99.
Proof.
  unfold valid_datetime. intros H.
  repeat (apply andb_prop in H as [H ?]).
  repeat match goal with
         | h : (_ <=? _) = true |- _ => apply N.leb_le in h
         end.
  repeat split; lia.
Qed.

(** The years, one by one: from 1000 on the decimal writing of a year
    is its four digits; before, it has three characters at most. *)
Lemma year_digits_table :
  forallb (fun n => pystr_eqb (year_digits (N.of_nat n)) (pad4 (N.of_nat n)))
    (seq (N.to_nat 1000) (N.to_nat 9000)) = true
  /\ forallb (fun n => (List.length (year_digits (N.of_nat n)) <=? 3)%nat)
       (seq 0 (N.to_nat 1000)) = true.
Proof. split; vm_compute; reflexivity. Qed.

Lemma year_digits_four (year : N) :
  1000 <= year -> year <= 9999 -> year_digits year = pad4 year.
Proof.
  intros Hlo Hhi. destruct year_digits_table as [Htable _].
  rewrite forallb_forall in Htable.
  specialize (Htable (N.to_nat year)). rewrite N2Nat.id in Htable.
  apply pystr_eqb_eq_true, Htable, in_seq. lia.
Qed.


(** The canonical layout, whatever the numbers. *)
Lemma canonical_date_layout (y1 y2 y3 y4 m1 m2 d1 d2 h1 h2 i1 i2 s1 s2 : N) :
  forallb is_digit [y1; y2; y3; y4; m1; m2; d1; d2; h1; h2; i1; i2; s1; s2] = true ->
  canonical_date
    [y1; y2; y3; y4; DASH; m1; m2; DASH; d1; d2; SPACE; h1; h2; COLON; i1; i2;
     COLON; s1; s2] = true.
Proof. intros H. unfold canonical_date. rewrite H. reflexivity. Qed.


(** From the year 1000 on the rendering has the canonical form. *)
Lemma strftime_canonical (d : datetime) :
  valid_datetime d = true -> 1000 <= dt_year d ->
  canonical_date (strftime d) = true.
Proof.
  intros H Hlo. apply valid_datetime_bounds in H as (Hy & Hm & Hd & Hh & Hi & Hs).
  unfold strftime. rewrite year_digits_four by assumption.
  unfold pad4, pad2. cbn [app].
  apply canonical_date_layout. cbn [forallb].
  rewrite !digit_is_digit by n_arith. reflexivity.
Qed.




Lemma UNKNOWN_DATE_not_canonical : canonical_date UNKNOWN_DATE = false.
Proof. reflexivity. Qed.

Section DateNormalizer.

Variable strptime : pystr -> result datetime.

(** The contract of [datetime.strptime] on a string: a failure to parse
    is a [ValueError] (a [TypeError] for an argument of another type),
    and what it returns is a [datetime]. *)
Hypothesis strptime_raises :
  forall s e, strptime s = Raise e -> catches_value_or_type_error e = true.
Hypothesis strptime_valid :
  forall s d, strptime s = Normal d -> valid_datetime d = true.


End DateNormalizer.

Lemma sample_strptime_raises (s : pystr) (e : exn) :
  sample_strptime s = Raise e -> catches_value_or_type_error e = true.
Proof.
  unfold sample_strptime. destruct (pystr_eqb s SAMPLE_DATE); intros H.
  - discriminate.
  - injection H as <-. reflexivity.
Defined.

Lemma sample_strptime_valid (s : pystr) (d : datetime) :
  sample_strptime s = Normal d -> valid_datetime d = true.
Proof.
  unfold sample_strptime. destruct (pystr_eqb s SAMPLE_DATE); intros H.
  - injection H as <-. reflexivity.
  - discriminate.
Defined.



Example normalize_pub_date_sample :
  normalize_pub_date sample_strptime SAMPLE_DATE = Normal (py "2024-01-01 10:30:00")
  /\ normalize_pub_date sample_strptime (py "yesterday") = Normal UNKNOWN_DATE
  /\ normalize_pub_date sample_strptime UNKNOWN_DATE = Normal UNKNOWN_DATE.
Proof. repeat split; reflexivity. Qed.

(** ** Language detection *)

(** Without a seed the answer may follow the entropy of the call. *)
Lemma detect_unseeded_may_differ :
  detect_seeded (fun seed _ => Normal [seed]) None 1 (py "hello")
  <> detect_seeded (fun seed _ => Normal [seed]) None 2 (py "hello").
Proof. discriminate. Qed.

Lemma detect_language_returns (detect_with : N -> pystr -> result pystr)
    (entropy : N) (text : pystr) :
  exists code, detect_language detect_with entropy text = Normal code.
Proof.
  unfold detect_language.
  destruct (detect_seeded detect_with DetectorFactory_seed entropy text);
    cbn [try_except bare_except]; eauto.
Qed.

(** C8: with the seed of line 23 the code returned for a text does not
    depend on the entropy of the call, in one run or in two; the function
    always returns, and it returns the sentinel when the detector raises. *)
Theorem detect_language_deterministic
    (detect_with : N -> pystr -> result pystr) (entropy1 entropy2 : N)
    (text : pystr) :
  detect_language detect_with entropy1 text
  = detect_language detect_with entropy2 text
  /\ exists code,
       detect_language detect_with entropy1 text = Normal code
       /\ (forall c,
            detect_seeded detect_with DetectorFactory_seed entropy1 text = Normal c ->
            code = c)
       /\ (forall e,
            detect_seeded detect_with DetectorFactory_seed entropy1 text = Raise e ->
            code = UNKNOWN_LANGUAGE).
Proof.
  split; [reflexivity|].
  unfold detect_language.
  destruct (detect_seeded detect_with DetectorFactory_seed entropy1 text)
    as [c|e]; cbn [try_except bare_except].
  - exists c. repeat split; congruence.
  - exists UNKNOWN_LANGUAGE. repeat split; congruence.
Qed.

Example detect_language_sample :
  detect_language sample_detect_with 7 (py "Rain again") = Normal (py "en")
  /\ detect_language sample_detect_with 7 [] = Normal UNKNOWN_LANGUAGE.
Proof. split; reflexivity. Qed.

(** ** The feed parser *)

Section FeedParser.

Variable feedparser_parse : pystr -> result parsed_feed.
Variable strptime : pystr -> result datetime.
Variable detect_with : N -> pystr -> result pystr.
Variable os_entropy : nat -> N.

Hypothesis strptime_raises :
  forall s e, strptime s = Raise e -> catches_value_or_type_error e = true.

Lemma normalize_pub_date_returns (raw : pystr) :
  exists out, normalize_pub_date strptime raw = Normal out.
Proof.
  unfold normalize_pub_date.
  destruct (negb (pystr_eqb raw UNKNOWN_DATE)); cbn [try_except]; eauto.
  destruct (strptime raw) as [d|e] eqn:Hp; cbn [try_except]; eauto.
  rewrite (strptime_raises _ _ Hp). eauto.
Qed.

(** One entry always gives one record, of the source of the feed. *)
Lemma parse_entry_returns (fi : feed_info) (n : nat) (e : entry) :
  exists item,
    parse_entry strptime detect_with os_entropy fi n e = Normal item
    /\ country item = fi_country fi /\ source item = fi_source fi.
Proof.
  unfold parse_entry.
  destruct (normalize_pub_date_returns
              (get (e_published e) (get (e_updated e) UNKNOWN_DATE)))
    as [out ->].
  match goal with
  | |- context [detect_language ?f ?x ?t] =>
      destruct (detect_language_returns f x t) as [code ->]
  end.
  eexists. repeat split.
Qed.

Lemma parse_entries_returns (fi : feed_info) (es : list entry) :
  forall news_items,
  exists items,
    parse_entries strptime detect_with os_entropy fi es news_items
    = (Normal tt, news_items ++ items)
    /\ List.length items = List.length es.
Proof.
  induction es as [|e es IH]; intros news_items; cbn [parse_entries].
  - exists []. now rewrite app_nil_r.
  - destruct (parse_entry_returns fi (List.length news_items) e)
      as (item & -> & _).
    destruct (IH (news_items ++ [item])) as (items & -> & Hlen).
    exists (item :: items). rewrite <- app_assoc. cbn [app List.length].
    auto.
Qed.

End FeedParser.

Section FeedParserOutcomes.

Variable feedparser_parse : pystr -> result parsed_feed.
Variable strptime : pystr -> result datetime.
Variable detect_with : N -> pystr -> result pystr.
Variable os_entropy : nat -> N.







End FeedParserOutcomes.


Example parse_rss_feed_sample :
  parse_rss_feed sample_feedparser_parse sample_strptime sample_detect_with
    (fun _ => 0) sample_feed_a []
  = (Normal
       [ mkNews (py "A-land") (py "A News") (py "Rain again")
           (py "2024-01-01 10:30:00") (py "More rain") (py "http://a/1") (py "en");
         mkNews (py "A-land") (py "A News") (py "Rain again")
           (py "2024-01-01 10:30:00") (py "More rain") (py "http://a/1") (py "en") ],
     [mkLog INFO (py "Successfully parsed 2 items from A News (A-land)")])
  /\ parse_rss_feed sample_feedparser_parse sample_strptime sample_detect_with
       (fun _ => 0) sample_feed_b []
     = (Normal [],
        [mkLog ERROR (py "Error parsing feed B News (B-land): not well-formed")]).
Proof. split; vm_compute; reflexivity. Qed.

(** ** Deduplication *)

Lemma pystr_eqb_eq (a b : pystr) : pystr_eqb a b = true <-> a = b.
Proof.
  unfold pystr_eqb. destruct (pystr_eq_dec a b); split; congruence.
Qed.

Lemma key_eqb_eq (a b : pystr * pystr) : key_eqb a b = true <-> a = b.
Proof.
  destruct a as [a1 a2], b as [b1 b2]. unfold key_eqb. cbn [fst snd].
  rewrite andb_true_iff, !pystr_eqb_eq. split.
  - intros [-> ->]. reflexivity.
  - intros H. injection H as -> ->. auto.
Qed.

Lemma key_eqb_refl (a : pystr * pystr) : key_eqb a a = true.
Proof. now apply key_eqb_eq. Qed.

Lemma seen_before_In (k : pystr * pystr) (seen : list (pystr * pystr)) :
  seen_before k seen = true <-> In k seen.
Proof.
  unfold seen_before. rewrite existsb_exists. split.
  - intros (x & Hx & He). apply key_eqb_eq in He. now subst.
  - intros H. exists k. split; [assumption|apply key_eqb_refl].
Qed.

Lemma seen_before_not_In (k : pystr * pystr) (seen : list (pystr * pystr)) :
  seen_before k seen = false <-> ~ In k seen.
Proof.
  rewrite <- seen_before_In. destruct (seen_before k seen); split; congruence.
Qed.

Lemma seen_before_cons (k h : pystr * pystr) (t : list (pystr * pystr)) :
  seen_before k (h :: t) = key_eqb k h || seen_before k t.
Proof. reflexivity. Qed.

(** What [keep_first] keeps comes from the rows, carries no key seen
    before, and no key twice. *)
Lemma keep_first_sound (rows : list news) : forall seen,
  (forall r, In r (keep_first seen rows) ->
             In r rows /\ ~ In (dedup_key r) seen)
  /\ NoDup (map dedup_key (keep_first seen rows)).
Proof.
  induction rows as [|x rows IH]; intros seen; cbn [keep_first].
  - split; [intros r []|constructor].
  - destruct (seen_before (dedup_key x) seen) eqn:Hx.
    + destruct (IH seen) as [Hin Hnd]. split; [|assumption].
      intros r Hr. apply Hin in Hr as [Hrows Hns]. split; [now right|assumption].
    + destruct (IH (dedup_key x :: seen)) as [Hin Hnd]. split.
      * intros r [<-|Hr].
        -- split; [now left|now apply seen_before_not_In].
        -- apply Hin in Hr as [Hrows Hns]. split; [now right|].
           intros Hk. apply Hns. now right.
      * cbn [map]. constructor; [|assumption].
        intros H. apply in_map_iff in H as (r & Hk & Hr).
        apply Hin in Hr as [_ Hns]. apply Hns. now left.
Qed.

(** Rows without a repeated key, none of them seen before, all stay. *)
Lemma keep_first_fixed (rows : list news) : forall seen,
  NoDup (map dedup_key rows) ->
  (forall r, In r rows -> ~ In (dedup_key r) seen) ->
  keep_first seen rows = rows.
Proof.
  induction rows as [|x rows IH]; intros seen Hnd Hseen; cbn [keep_first];
    [reflexivity|].
  cbn [map] in Hnd. inversion Hnd as [|? ? Hx Hnd']; subst.
  assert (seen_before (dedup_key x) seen = false) as ->.
  { apply seen_before_not_In. apply Hseen. now left. }
  f_equal. apply IH; [assumption|].
  intros r Hr [He|Hk].
  - apply Hx. rewrite He. now apply in_map.
  - apply (Hseen r); [now right|assumption].
Qed.

(** The last row of a list is kept exactly when no row before it has its
    key; the rows before it fare as they would without it. *)
Lemma keep_first_snoc (pre : list news) : forall seen r,
  keep_first seen (pre ++ [r])
  = keep_first seen pre
    ++ (if seen_before (dedup_key r) seen
           || seen_before (dedup_key r) (map dedup_key pre)
        then [] else [r]).
Proof.
  induction pre as [|x pre IH]; intros seen r; cbn [app keep_first map].
  - cbn [seen_before existsb]. rewrite orb_false_r.
    destruct (seen_before (dedup_key r) seen); reflexivity.
  - destruct (seen_before (dedup_key x) seen) eqn:Hx.
    + rewrite IH, seen_before_cons. f_equal.
      destruct (key_eqb (dedup_key r) (dedup_key x)) eqn:He; [|reflexivity].
      apply key_eqb_eq in He. rewrite He, Hx. reflexivity.
    + rewrite IH, !seen_before_cons. cbn [app]. f_equal.
      destruct (key_eqb (dedup_key r) (dedup_key x)),
        (seen_before (dedup_key r) seen),
        (seen_before (dedup_key r) (map dedup_key pre)); reflexivity.
Qed.

Lemma dedup_idempotent (data : list news) : dedup (dedup data) = dedup data.
Proof.
  unfold dedup. destruct (keep_first_sound data []) as [_ Hnd].
  apply keep_first_fixed; [assumption|]. intros r _ [].
Qed.

Lemma drop_duplicates_DataFrame_of (data : list news) :
  drop_duplicates (DataFrame_of data)
  = Normal {| df_columns := df_columns (DataFrame_of data);
              df_rows := dedup data |}.
Proof. destruct data; reflexivity. Qed.

Lemma update_same {V} (f : pystr -> option V) (name : pystr) (v : V) :
  update f name v name = Some v.
Proof.
  unfold update. now rewrite (proj2 (pystr_eqb_eq name name) eq_refl).
Qed.

Lemma save_to_csv_run (data : list news) (filename : pystr) (w : world) :
  save_to_csv data filename w
  = (Normal (len (dedup data)),
     {| w_log := w_log w ++ [mkLog INFO (saved_msg (len (dedup data)) filename)];
        w_csv := update (w_csv w) filename
                   {| csv_header := df_columns (DataFrame_of data);
                      csv_body := map news_cells (dedup data) |};
        w_db := w_db w; w_stdout := w_stdout w |}).
Proof.
  unfold save_to_csv, bind, lift. rewrite drop_duplicates_DataFrame_of.
  reflexivity.
Qed.

Lemma save_to_sqlite_run (data : list news) (db_name : pystr) (w : world) :
  data <> [] \/ w_db w db_name <> None ->
  save_to_sqlite data db_name w
  = (Normal (len (dedup data)),
     {| w_log := w_log w ++ [mkLog INFO (saved_msg (len (dedup data)) db_name)];
        w_csv := w_csv w;
        w_db := update (w_db w) db_name (held_rows w db_name ++ dedup data);
        w_stdout := w_stdout w |}).
Proof.
  intros H. unfold save_to_sqlite, bind, lift, held_rows.
  rewrite drop_duplicates_DataFrame_of.
  unfold to_sql_append. cbn [df_columns df_rows].
  destruct (w_db w db_name) as [old|] eqn:Hdb.
  - destruct data; reflexivity.
  - destruct data; [destruct H; congruence|reflexivity].
Qed.

Lemma save_to_sqlite_no_table (db_name : pystr) (w : world) :
  w_db w db_name = None ->
  save_to_sqlite [] db_name w
  = (Raise NO_COLUMNS_ERROR, w).
Proof.
  intros H. unfold save_to_sqlite, bind, lift, to_sql_append.
  cbn. rewrite H. reflexivity.
Qed.

(** Every key of the input is the key of a kept row, unless it was seen
    before. *)
Lemma keep_first_complete (rows : list news) : forall seen r,
  In r rows ->
  In (dedup_key r) seen
  \/ exists r', In r' (keep_first seen rows) /\ dedup_key r' = dedup_key r.
Proof.
  induction rows as [|x rows IH]; intros seen r Hr; [contradiction|].
  cbn [keep_first]. destruct (seen_before (dedup_key x) seen) eqn:Hx.
  - destruct Hr as [<-|Hr]; [left; now apply seen_before_In|].
    now apply IH.
  - destruct Hr as [<-|Hr]; [right; exists x; split; [now left|reflexivity]|].
    destruct (IH (dedup_key x :: seen) r Hr) as [[He|Hs]|(r' & Hr' & Hk)].
    + right. exists x. split; [now left|assumption].
    + now left.
    + right. exists r'. split; [now right|assumption].
Qed.

(** C4: both writers keep, of any batch, the rows [dedup] keeps: the file
    holds them and nothing else, the table gains them after the rows it
    held (the store writer raises only for an empty batch with no table
    yet).  [dedup] keeps a row exactly when no earlier row has its
    [(title, url)]; so every key of the batch is kept once, at its first
    row, and a deduplicated batch is left as it is. *)
Theorem dedup_writers_keep_first_occurrence
    (data : list news) (filename db_name : pystr) (w : world) :
  (exists w',
      save_to_csv data filename w = (Normal (len (dedup data)), w')
      /\ option_map csv_body (w_csv w' filename)
         = Some (map news_cells (dedup data)))
  /\ match save_to_sqlite data db_name w with
     | (Normal n, w') =>
         n = len (dedup data)
         /\ w_db w' db_name = Some (held_rows w db_name ++ dedup data)
     | (Raise _, _) => data = [] /\ w_db w db_name = None
     end
  /\ (forall pre r,
        dedup (pre ++ [r])
        = dedup pre
          ++ (if seen_before (dedup_key r) (map dedup_key pre) then [] else [r]))
  /\ (forall k, In k (map dedup_key data) <-> In k (map dedup_key (dedup data)))
  /\ NoDup (map dedup_key (dedup data))
  /\ dedup (dedup data) = dedup data
  /\ (exists w',
        save_to_csv (dedup data) filename w = (Normal (len (dedup data)), w')
        /\ option_map csv_body (w_csv w' filename)
           = Some (map news_cells (dedup data))).
Proof.
  split; [|split; [|split; [|split; [|split; [|split]]]]].
  - rewrite save_to_csv_run. eexists. split; [reflexivity|].
    cbn [w_csv]. now rewrite update_same.
  - destruct data as [|r data].
    + destruct (w_db w db_name) as [old|] eqn:Hdb.
      * rewrite save_to_sqlite_run by (right; congruence).
        cbn [w_db]. rewrite update_same. auto.
      * rewrite save_to_sqlite_no_table by assumption. auto.
    + rewrite save_to_sqlite_run by (left; discriminate).
      cbn [w_db]. rewrite update_same. auto.
  - intros pre r. unfold dedup. now rewrite keep_first_snoc.
  - intros k. rewrite !in_map_iff. split.
    + intros (r & <- & Hr).
      destruct (keep_first_complete data [] r Hr) as [[]|(r' & Hr' & Hk)].
      exists r'. auto.
    + intros (r & <- & Hr). exists r. split; [reflexivity|].
      now apply (proj1 (keep_first_sound data [])).
  - apply keep_first_sound.
  - apply dedup_idempotent.
  - rewrite save_to_csv_run, dedup_idempotent. eexists. split; [reflexivity|].
    cbn [w_csv]. now rewrite update_same.
Qed.

Example dedup_sample :
  dedup sample_batch
  = [ sample_news "B-land" "B News" "Rain" "http://b/1" "first";
      sample_news "A-land" "Z News" "Sun" "http://z/1" "third";
      sample_news "A-land" "A News" "Sun" "http://a/1" "fourth" ].
Proof. reflexivity. Qed.

(** ** The order of the group labels *)

Lemma pystr_compare_eq (a : pystr) : forall b, pystr_compare a b = Eq <-> a = b.
Proof.
  induction a as [|x a IH]; intros [|y b]; cbn [pystr_compare];
    try (split; [discriminate|congruence]); [tauto|].
  destruct (x ?= y) eqn:Hxy.
  - apply N.compare_eq in Hxy. subst y. rewrite IH. split; congruence.
  - split; [discriminate|]. intros H. injection H as -> ->.
    rewrite N.compare_refl in Hxy. discriminate.
  - split; [discriminate|]. intros H. injection H as -> ->.
    rewrite N.compare_refl in Hxy. discriminate.
Qed.

Lemma pystr_compare_antisym (a : pystr) : forall b,
  pystr_compare b a = CompOpp (pystr_compare a b).
Proof.
  induction a as [|x a IH]; intros [|y b]; cbn [pystr_compare]; try reflexivity.
  rewrite (N.compare_antisym x y).
  destruct (x ?= y); cbn [CompOpp]; auto.
Qed.

Lemma pystr_compare_trans (a : pystr) : forall b c,
  pystr_compare a b = Lt -> pystr_compare b c = Lt -> pystr_compare a c = Lt.
Proof.
  induction a as [|x a IH]; intros [|y b] [|z c]; cbn [pystr_compare];
    try congruence.
  destruct (x ?= y) eqn:Hxy; try discriminate;
    destruct (y ?= z) eqn:Hyz; try discriminate; intros Hab Hbc.
  - apply N.compare_eq in Hxy, Hyz. subst. rewrite N.compare_refl. eauto.
  - apply N.compare_eq in Hxy. subst. now rewrite Hyz.
  - apply N.compare_eq in Hyz. subst. now rewrite Hxy.
  - rewrite N.compare_lt_iff in *.
    assert (x < z) as H by lia. apply N.compare_lt_iff in H. now rewrite H.
Qed.

Lemma key_compare_eq (a b : pystr * pystr) : key_compare a b = Eq <-> a = b.
Proof.
  destruct a as [a1 a2], b as [b1 b2]. unfold key_compare. cbn [fst snd].
  destruct (pystr_compare a1 b1) eqn:H1.
  - apply pystr_compare_eq in H1. subst. rewrite pystr_compare_eq.
    split; congruence.
  - split; [discriminate|]. intros H. injection H as -> ->.
    rewrite (proj2 (pystr_compare_eq b1 b1) eq_refl) in H1. discriminate.
  - split; [discriminate|]. intros H. injection H as -> ->.
    rewrite (proj2 (pystr_compare_eq b1 b1) eq_refl) in H1. discriminate.
Qed.

Lemma key_compare_antisym (a b : pystr * pystr) :
  key_compare b a = CompOpp (key_compare a b).
Proof.
  unfold key_compare.
  rewrite (pystr_compare_antisym (fst a) (fst b)),
          (pystr_compare_antisym (snd a) (snd b)).
  destruct (pystr_compare (fst a) (fst b)); reflexivity.
Qed.

(** By country first, by source among equal countries. *)
Lemma key_lt_lexicographic (c1 s1 c2 s2 : pystr) :
  key_lt (c1, s1) (c2, s2)
  <-> pystr_compare c1 c2 = Lt \/ (c1 = c2 /\ pystr_compare s1 s2 = Lt).
Proof.
  unfold key_lt, key_compare. cbn [fst snd].
  destruct (pystr_compare c1 c2) eqn:Hc.
  - apply pystr_compare_eq in Hc. subst. split; [auto|].
    intros [H|[_ H]]; [discriminate|assumption].
  - split; auto.
  - split; [discriminate|]. intros [H|[-> _]]; [discriminate|].
    rewrite (proj2 (pystr_compare_eq c2 c2) eq_refl) in Hc. discriminate.
Qed.

Lemma key_lt_trans (a b c : pystr * pystr) :
  key_lt a b -> key_lt b c -> key_lt a c.
Proof.
  destruct a as [a1 a2], b as [b1 b2], c as [c1 c2].
  rewrite !key_lt_lexicographic.
  intros [H1|[-> H1]] [H2|[-> H2]].
  - left. eapply pystr_compare_trans; eassumption.
  - now left.
  - now left.
  - right. split; [reflexivity|]. eapply pystr_compare_trans; eassumption.
Qed.

Lemma key_lt_irrefl (a : pystr * pystr) : ~ key_lt a a.
Proof.
  unfold key_lt. rewrite (proj2 (key_compare_eq a a) eq_refl). discriminate.
Qed.

Lemma insert_key_In (k k' : pystr * pystr) (ks : list (pystr * pystr)) :
  In k' (insert_key k ks) <-> k' = k \/ In k' ks.
Proof.
  induction ks as [|h t IH]; cbn [insert_key].
  - cbn [In]. intuition.
  - destruct (key_compare k h) eqn:Hc.
    + apply key_compare_eq in Hc. subst h. cbn [In]. intuition.
    + cbn [In]. intuition.
    + cbn [In]. rewrite IH. intuition.
Qed.

Lemma insert_key_sorted (k : pystr * pystr) (ks : list (pystr * pystr)) :
  StronglySorted key_lt ks -> StronglySorted key_lt (insert_key k ks).
Proof.
  induction 1 as [|h t Hs IH Hh]; cbn [insert_key].
  - repeat constructor.
  - destruct (key_compare k h) eqn:Hc.
    + now constructor.
    + constructor; [now constructor|]. constructor; [exact Hc|].
      eapply Forall_impl; [|exact Hh]. intros x. now apply key_lt_trans.
    + constructor; [assumption|]. apply Forall_forall. intros x Hx.
      apply insert_key_In in Hx as [->|Hx].
      * unfold key_lt. rewrite key_compare_antisym, Hc. reflexivity.
      * rewrite Forall_forall in Hh. now apply Hh.
Qed.

Lemma group_keys_sorted (rows : list news) :
  StronglySorted key_lt (group_keys rows).
Proof.
  unfold group_keys. induction rows as [|r rows IH]; cbn [map fold_right].
  - constructor.
  - now apply insert_key_sorted.
Qed.

Lemma group_keys_In (rows : list news) (k : pystr * pystr) :
  In k (group_keys rows) <-> In k (map group_key rows).
Proof.
  unfold group_keys. induction rows as [|r rows IH]; cbn [map fold_right].
  - tauto.
  - rewrite insert_key_In, IH. cbn [In]. intuition.
Qed.

Lemma sorted_NoDup (ks : list (pystr * pystr)) :
  StronglySorted key_lt ks -> NoDup ks.
Proof.
  induction 1 as [|h t Hs IH Hh]; constructor; [|assumption].
  intros Hin. rewrite Forall_forall in Hh.
  exact (key_lt_irrefl h (Hh h Hin)).
Qed.

(** ** The summary *)

Lemma group_size_cons (k : pystr * pystr) (r : news) (rows : list news) :
  group_size k (r :: rows)
  = (if key_eqb (group_key r) k then 1 else 0) + group_size k rows.
Proof.
  unfold group_size, len. cbn [filter].
  destruct (key_eqb (group_key r) k); cbn [List.length]; lia.
Qed.

Lemma sum_N_add (A : Type) (f g : A -> N) (l : list A) :
  sum_N (map (fun x => f x + g x) l) = sum_N (map f l) + sum_N (map g l).
Proof.
  unfold sum_N. induction l as [|x l IH]; cbn [map fold_right]; lia.
Qed.

Lemma sum_N_absent (k0 : pystr * pystr) (ks : list (pystr * pystr)) :
  ~ In k0 ks -> sum_N (map (fun k => if key_eqb k0 k then 1 else 0) ks) = 0.
Proof.
  unfold sum_N. induction ks as [|k ks IH]; cbn [map fold_right In];
    intros H; [reflexivity|].
  destruct (key_eqb k0 k) eqn:He.
  - apply key_eqb_eq in He. subst. tauto.
  - rewrite IH by tauto. reflexivity.
Qed.

(** A label that is listed once is counted once. *)
Lemma sum_N_present (k0 : pystr * pystr) (ks : list (pystr * pystr)) :
  NoDup ks -> In k0 ks ->
  sum_N (map (fun k => if key_eqb k0 k then 1 else 0) ks) = 1.
Proof.
  induction 1 as [|k ks Hk Hnd IH]; intros Hin; [contradiction|].
  change (sum_N (map ?f (k :: ks))) with (f k + sum_N (map f ks)).
  cbv beta. destruct (key_eqb k0 k) eqn:He.
  - apply key_eqb_eq in He. subst k. now rewrite sum_N_absent.
  - destruct Hin as [->|Hin]; [now rewrite key_eqb_refl in He|].
    now rewrite IH.
Qed.

(** Over labels that cover the rows, the group sizes add up to the
    number of rows. *)
Lemma group_sizes_cover (ks : list (pystr * pystr)) (rows : list news) :
  NoDup ks -> (forall r, In r rows -> In (group_key r) ks) ->
  sum_N (map (fun k => group_size k rows) ks) = len rows.
Proof.
  intros Hnd. induction rows as [|r rows IH]; intros Hcover.
  - unfold group_size, len, sum_N. cbn [filter List.length].
    induction ks as [|k ks IHk]; cbn [map fold_right]; [reflexivity|].
    inversion Hnd; subst. now rewrite IHk.
  - rewrite (map_ext _ _ (fun k => group_size_cons k r rows)).
    rewrite (sum_N_add _ (fun k => if key_eqb (group_key r) k then 1 else 0)
               (fun k => group_size k rows)).
    rewrite sum_N_present by (auto; apply Hcover; now left).
    rewrite IH by (intros x Hx; apply Hcover; now right).
    unfold len. cbn [List.length]. lia.
Qed.

Lemma generate_summary_run (data : list news) :
  data <> [] -> generate_summary data = Normal (summary_rows data).
Proof.
  destruct data as [|r data]; [congruence|]. intros _.
  unfold generate_summary, groupby_size, summary_rows.
  change (has_columns [py "country"; py "source"] (DataFrame_of (r :: data)))
    with true.
  cbn [df_rows DataFrame_of]. rewrite map_map. reflexivity.
Qed.

Lemma generate_summary_no_columns :
  generate_summary [] = Raise (KeyError_of (py "country")).
Proof. reflexivity. Qed.

Lemma summary_rows_keys (data : list news) :
  map summary_key (summary_rows data) = group_keys data.
Proof.
  unfold summary_rows. rewrite map_map. unfold summary_key. cbn [s_country s_source].
  rewrite <- (map_id (group_keys data)) at 2. apply map_ext.
  intros [c s]. reflexivity.
Qed.

Lemma summary_rows_totals (data : list news) :
  map total_articles (summary_rows data)
  = map (fun k => group_size k data) (group_keys data).
Proof. unfold summary_rows. now rewrite map_map. Qed.

(** C6: the summary is computed on the whole list, not on what the
    writers keep: every group gets the number of all the records with its
    [(country, source)], duplicates by [(title, url)] included, so the
    totals add up to the length of the list; every source of the list has
    one group, and every group carries the constant annotation. *)
Theorem generate_summary_counts_every_record (data : list news) :
  data <> [] ->
  exists summary,
    generate_summary data = Normal summary
    /\ (forall s, In s summary ->
          total_articles s
          = len (filter (fun r => key_eqb (group_key r) (summary_key s)) data)
          /\ 1 <= total_articles s
          /\ historical_data s = HISTORICAL_DATA)
    /\ (forall r, In r data ->
          exists s, In s summary /\ summary_key s = group_key r)
    /\ NoDup (map summary_key summary)
    /\ sum_N (map total_articles summary) = len data
    /\ len (dedup data) <= len data.
Proof.
  intros Hne. exists (summary_rows data).
  split; [now apply generate_summary_run|].
  split; [|split; [|split; [|split]]].
  - intros s Hs. unfold summary_rows in Hs.
    apply in_map_iff in Hs as (k & <- & Hk).
    cbn [total_articles historical_data summary_key s_country s_source].
    replace (fst k, snd k) with k by now destruct k.
    split; [reflexivity|]. split; [|reflexivity].
    apply group_keys_In, in_map_iff in Hk as (r & Hr & Hin).
    unfold group_size, len.
    assert (In r (filter (fun r0 => key_eqb (group_key r0) k) data)) as Hf.
    { apply filter_In. split; [assumption|]. now apply key_eqb_eq. }
    destruct (filter _ data); [contradiction|]. cbn [List.length]. lia.
  - intros r Hr.
    assert (In (group_key r) (map summary_key (summary_rows data))) as Hk.
    { rewrite summary_rows_keys. apply group_keys_In. now apply in_map. }
    apply in_map_iff in Hk as (s & Hs & Hin). eauto.
  - rewrite summary_rows_keys. apply sorted_NoDup, group_keys_sorted.
  - rewrite summary_rows_totals. apply group_sizes_cover.
    + apply sorted_NoDup, group_keys_sorted.
    + intros r Hr. apply group_keys_In. now apply in_map.
  - unfold len, dedup. generalize (@nil (pystr * pystr)).
    induction data as [|r data IH]; intros seen; [congruence|].
    cbn [keep_first].
    assert (forall sn, (List.length (keep_first sn data) <= List.length data)%nat)
      as Hle.
    { destruct data as [|r' data']; [intros; cbn; lia|].
      intros sn. specialize (IH ltac:(discriminate) sn). lia. }
    destruct (seen_before (dedup_key r) seen); cbn [List.length].
    + specialize (Hle seen). lia.
    + specialize (Hle (dedup_key r :: seen)). lia.
Qed.

Lemma generate_summary_counts_every_record_witness :
  exists summary,
    generate_summary sample_batch = Normal summary
    /\ sum_N (map total_articles summary) = 4
    /\ len (dedup sample_batch) = 3.
Proof.
  destruct (generate_summary_counts_every_record sample_batch)
    as (summary & Hrun & _ & _ & _ & Hsum & _); [discriminate|].
  exists summary. split; [exact Hrun|]. split; [exact Hsum|reflexivity].
Defined.

(** The two records with the same title and URL are both counted in
    their group, and only the first of them is written. *)
Example generate_summary_sample :
  generate_summary sample_batch
  = Normal [ mkSummary (py "A-land") (py "A News") 1 HISTORICAL_DATA;
             mkSummary (py "A-land") (py "Z News") 1 HISTORICAL_DATA;
             mkSummary (py "B-land") (py "B News") 2 HISTORICAL_DATA ]
  /\ group_size (py "B-land", py "B News") (dedup sample_batch) = 1.
Proof. split; reflexivity. Qed.

(** C10: the groups come out in increasing order of [(country, source)],
    compared code point by code point, country first; each label of the
    list appears once. *)
Theorem generate_summary_sorted (data : list news) :
  data <> [] ->
  exists summary,
    generate_summary data = Normal summary
    /\ StronglySorted key_lt (map summary_key summary)
    /\ (forall k, In k (map summary_key summary) <-> In k (map group_key data))
    /\ (forall c1 s1 c2 s2,
          key_lt (c1, s1) (c2, s2)
          <-> pystr_compare c1 c2 = Lt
              \/ (c1 = c2 /\ pystr_compare s1 s2 = Lt)).
Proof.
  intros Hne. exists (summary_rows data).
  split; [now apply generate_summary_run|]. rewrite summary_rows_keys.
  split; [apply group_keys_sorted|]. split; [apply group_keys_In|].
  apply key_lt_lexicographic.
Qed.

Lemma generate_summary_sorted_witness :
  exists summary,
    generate_summary sample_batch = Normal summary
    /\ StronglySorted key_lt (map summary_key summary)
    /\ map summary_key summary <> [(py "B-land", py "B News");
                                   (py "A-land", py "Z News");
                                   (py "A-land", py "A News")].
Proof.
  destruct (generate_summary_sorted sample_batch)
    as (summary & Hrun & Hsorted & _); [discriminate|].
  exists summary. split; [exact Hrun|]. split; [exact Hsorted|].
  intros Heq. rewrite Heq in Hsorted.
  inversion Hsorted as [|? ? _ Hall]. inversion Hall as [|? ? Hlt _].
  discriminate Hlt.
Defined.

(** ** Two runs, and a run without records *)

Lemma print_all_run (lines : list pystr) : forall w,
  print_all lines w
  = (Normal tt,
     {| w_log := w_log w; w_csv := w_csv w; w_db := w_db w;
        w_stdout := w_stdout w ++ lines |}).
Proof.
  induction lines as [|l lines IH]; intros w; cbn [print_all].
  - unfold ret. rewrite app_nil_r. now destruct w.
  - unfold bind, print. rewrite IH. cbn [w_log w_csv w_db w_stdout].
    now rewrite <- app_assoc.
Qed.

Lemma update_other {V} (f : pystr -> option V) (name other : pystr) (v : V) :
  pystr_eqb other name = false -> update f name v other = f other.
Proof. unfold update. now intros ->. Qed.

Section Persist.

Variable str_of_summary : list summary_row -> pystr.

(** With records to write, the last part of [main] runs to its end:
    the file holds the deduplicated batch and nothing else, and the
    table holds what it held followed by that batch. *)
Lemma main_persist_run (all_news : list news) (feed_count : N) (w : world) :
  all_news <> [] ->
  exists w',
    main_persist str_of_summary all_news feed_count w = (Normal tt, w')
    /\ w_csv w' NEWS_CSV
       = Some {| csv_header := NEWS_COLUMNS;
                 csv_body := map news_cells (dedup all_news) |}
    /\ w_db w' NEWS_DB = Some (held_rows w NEWS_DB ++ dedup all_news).
Proof.
  intros Hne. unfold main_persist, bind.
  rewrite save_to_csv_run.
  rewrite save_to_sqlite_run by (left; assumption).
  unfold lift. rewrite generate_summary_run by assumption.
  unfold logging, summary_to_csv, write_csv, print.
  cbn [w_log w_csv w_db w_stdout]. rewrite print_all_run.
  eexists. split; [reflexivity|].
  cbn [w_log w_csv w_db w_stdout]. split.
  - rewrite update_other by reflexivity. rewrite update_same.
    destruct all_news; [congruence|reflexivity].
  - now rewrite update_same.
Qed.

(** Two runs of the writers on the same accumulated list: the file has
    the rows of the deduplicated batch after each run, the table gains
    that batch at each run. *)
Lemma main_persist_twice
    (all_news : list news) (feed_count : N) (w : world) :
  all_news <> [] ->
  exists w1 w2,
    main_persist str_of_summary all_news feed_count w = (Normal tt, w1)
    /\ main_persist str_of_summary all_news feed_count w1 = (Normal tt, w2)
    /\ csv_row_count w1 NEWS_CSV = len (dedup all_news)
    /\ csv_row_count w2 NEWS_CSV = csv_row_count w1 NEWS_CSV
    /\ w_csv w2 NEWS_CSV = w_csv w1 NEWS_CSV
    /\ db_row_count w1 NEWS_DB = db_row_count w NEWS_DB + len (dedup all_news)
    /\ db_row_count w2 NEWS_DB = db_row_count w1 NEWS_DB + len (dedup all_news)
    /\ w_db w2 NEWS_DB
       = Some (held_rows w NEWS_DB ++ dedup all_news ++ dedup all_news)
    /\ (db_row_count w NEWS_DB = 0 ->
        db_row_count w2 NEWS_DB = 2 * db_row_count w1 NEWS_DB).
Proof.
  intros Hne.
  destruct (main_persist_run all_news feed_count w Hne)
    as (w1 & Hrun1 & Hcsv1 & Hdb1).
  destruct (main_persist_run all_news feed_count w1 Hne)
    as (w2 & Hrun2 & Hcsv2 & Hdb2).
  exists w1, w2.
  assert (db_row_count w1 NEWS_DB
          = db_row_count w NEWS_DB + len (dedup all_news)) as Hc1.
  { unfold db_row_count, held_rows in *. rewrite Hdb1.
    unfold len. rewrite length_app. destruct (w_db w NEWS_DB); cbn; lia. }
  assert (db_row_count w2 NEWS_DB
          = db_row_count w1 NEWS_DB + len (dedup all_news)) as Hc2.
  { unfold db_row_count, held_rows in *. rewrite Hdb2, Hdb1.
    unfold len. rewrite length_app. lia. }
  repeat split; try assumption.
  - unfold csv_row_count. rewrite Hcsv1. cbn [csv_body].
    unfold len. now rewrite length_map.
  - unfold csv_row_count. now rewrite Hcsv1, Hcsv2.
  - now rewrite Hcsv1, Hcsv2.
  - rewrite Hdb2. unfold held_rows at 1. rewrite Hdb1.
    now rewrite <- app_assoc.
  - intros H0. lia.
Qed.

(** C9, amended: with no record at all, [save_to_csv] does not raise;
    it writes a file without rows and returns 0.  [generate_summary]
    raises a [KeyError], the frame having no column to group by.
    [save_to_sqlite] raises when table [news] does not exist yet, and
    otherwise adds nothing and returns 0.  So the run stops before any
    summary is written or printed, with the file of records emptied. *)
Theorem empty_run_stops_before_summary
    (filename db_name : pystr) (feed_count : N) (w : world) :
  (exists w',
      save_to_csv [] filename w = (Normal 0, w')
      /\ w_csv w' filename = Some {| csv_header := []; csv_body := [] |})
  /\ (exists e, generate_summary [] = Raise e /\ exn_cls e = KeyError)
  /\ match w_db w db_name with
     | None =>
         exists e, save_to_sqlite [] db_name w = (Raise e, w)
                   /\ exn_cls e = DatabaseError
     | Some rows =>
         exists w', save_to_sqlite [] db_name w = (Normal 0, w')
                    /\ w_db w' db_name = Some rows
     end
  /\ (exists e w',
        main_persist str_of_summary [] feed_count w = (Raise e, w')
        /\ exn_cls e = (match w_db w NEWS_DB with
                        | None => DatabaseError
                        | Some _ => KeyError
                        end)
        /\ w_csv w' NEWS_CSV = Some {| csv_header := []; csv_body := [] |}
        /\ w_csv w' SUMMARY_CSV = w_csv w SUMMARY_CSV
        /\ w_stdout w' = w_stdout w).
Proof.
  split; [|split; [|split]].
  - rewrite save_to_csv_run. eexists. split; [reflexivity|].
    cbn [w_csv]. now rewrite update_same.
  - eexists. split; [apply generate_summary_no_columns|reflexivity].
  - destruct (w_db w db_name) as [rows|] eqn:Hdb.
    + rewrite save_to_sqlite_run by (right; congruence).
      eexists. split; [reflexivity|]. cbn [w_db].
      rewrite update_same. unfold held_rows. rewrite Hdb.
      now rewrite app_nil_r.
    + rewrite save_to_sqlite_no_table by assumption.
      eexists. split; reflexivity.
  - unfold main_persist, bind. rewrite save_to_csv_run.
    destruct (w_db w NEWS_DB) as [rows|] eqn:Hdb.
    + rewrite save_to_sqlite_run by (right; cbn [w_db]; congruence).
      unfold lift. rewrite generate_summary_no_columns.
      do 2 eexists. split; [reflexivity|].
      cbn [w_log w_csv w_db w_stdout exn_cls KeyError_of].
      repeat split.
    + rewrite save_to_sqlite_no_table by (cbn [w_db]; assumption).
      do 2 eexists. split; [reflexivity|].
      cbn [w_log w_csv w_db w_stdout exn_cls].
      repeat split.
Qed.

End Persist.

(** C9, as stated, fails for the writer of the file: on an empty list it
    returns 0 and leaves a file without rows. *)
Lemma save_to_csv_empty_returns :
  exists w',
    save_to_csv [] NEWS_CSV empty_world = (Normal 0, w')
    /\ w_csv w' NEWS_CSV = Some {| csv_header := []; csv_body := [] |}
    /\ forall e w'', save_to_csv [] NEWS_CSV empty_world <> (Raise e, w'').
Proof.
  eexists. split; [reflexivity|]. split; [reflexivity|].
  intros e w''. discriminate.
Qed.

Section Runs.

Variable feedparser_parse : pystr -> result parsed_feed.
Variable strptime : pystr -> result datetime.
Variable detect_with : N -> pystr -> result pystr.
Variable os_entropy : nat -> nat -> N.
Variable str_of_summary : list summary_row -> pystr.

(** The parser only adds to the log; what it returns does not depend on
    the lines written before. *)
Lemma parse_rss_feed_log (entropy : nat -> N) (fi : feed_info)
    (log : list log_entry) :
  exists line,
    parse_rss_feed feedparser_parse strptime detect_with entropy fi log
    = (Normal (match fst (parse_rss_feed feedparser_parse strptime
                            detect_with entropy fi []) with
               | Normal news_items => news_items
               | Raise _ => []
               end),
       log ++ [line]).
Proof.
  unfold parse_rss_feed, parse_rss_feed_try.
  destruct (feedparser_parse (fi_url fi)) as [feed|e].
  - destruct (bozo feed); [eexists; reflexivity|].
    destruct (parse_entries strptime detect_with entropy fi (entries feed) [])
      as [[u|e] news_items].
    + eexists; reflexivity.
    + destruct (exn_class_eqb (exn_cls e) URLError); eexists; reflexivity.
  - destruct (exn_class_eqb (exn_cls e) URLError); eexists; reflexivity.
Qed.

(** The loop of [main] always ends, with the records of the feeds in
    the order of the feeds; it touches neither file nor table. *)
Lemma main_collect_run (feeds : list feed_info) : forall i all_news w,
  exists w',
    main_collect feedparser_parse strptime detect_with os_entropy
      feeds i all_news w
    = (Normal (all_news
               ++ collected feedparser_parse strptime detect_with os_entropy
                    feeds i),
       w')
    /\ w_csv w' = w_csv w /\ w_db w' = w_db w.
Proof.
  induction feeds as [|feed rest IH]; intros i all_news w;
    cbn [main_collect collected].
  - exists w. unfold ret. now rewrite app_nil_r.
  - unfold bind at 1. unfold logging at 1. unfold bind at 1.
    unfold parse_rss_feed_io at 1. cbn [w_log w_csv w_db w_stdout].
    match goal with
    | |- context [parse_rss_feed _ _ _ ?en feed ?lg] =>
        destruct (parse_rss_feed_log en feed lg) as [line ->]
    end.
    fold (feed_news feedparser_parse strptime detect_with os_entropy i feed).
    match goal with
    | |- context [main_collect _ _ _ _ rest (S i) ?acc ?w0] =>
        destruct (IH (S i) acc w0) as (w' & -> & Hcsv & Hdb)
    end.
    exists w'. rewrite <- app_assoc. auto.
Qed.

(** C5: two runs of the program against the same feeds, when they give
    at least one record.  The file of records is overwritten, so it has
    the rows of the deduplicated list after each run; the table gains
    that list at each run with no look at the rows it holds, so a store
    without rows before the first run holds twice as many rows after
    the second run as after the first. *)
Theorem two_runs_file_constant_store_doubles (w : world) :
  collected feedparser_parse strptime detect_with os_entropy RSS_FEEDS 0
  <> [] ->
  let all_news :=
    collected feedparser_parse strptime detect_with os_entropy RSS_FEEDS 0 in
  let run :=
    main feedparser_parse strptime detect_with os_entropy str_of_summary in
  exists w1 w2,
    run w = (Normal tt, w1) /\ run w1 = (Normal tt, w2)
    /\ csv_row_count w1 NEWS_CSV = len (dedup all_news)
    /\ csv_row_count w2 NEWS_CSV = csv_row_count w1 NEWS_CSV
    /\ db_row_count w1 NEWS_DB = db_row_count w NEWS_DB + len (dedup all_news)
    /\ db_row_count w2 NEWS_DB = db_row_count w1 NEWS_DB + len (dedup all_news)
    /\ w_db w2 NEWS_DB
       = Some (held_rows w NEWS_DB ++ dedup all_news ++ dedup all_news)
    /\ (db_row_count w NEWS_DB = 0 ->
        db_row_count w2 NEWS_DB = 2 * db_row_count w1 NEWS_DB).
Proof.
  intros Hne all_news run.
  assert (forall w0, exists w0',
             run w0 = (Normal tt, w0')
             /\ w_csv w0' NEWS_CSV
                = Some {| csv_header := NEWS_COLUMNS;
                          csv_body := map news_cells (dedup all_news) |}
             /\ w_db w0' NEWS_DB
                = Some (held_rows w0 NEWS_DB ++ dedup all_news)) as Hrun.
  { intros w0. unfold run, main. unfold bind at 1.
    destruct (main_collect_run RSS_FEEDS 0 [] w0) as (wc & -> & Hcsv & Hdb).
    cbn [app]. fold all_news.
    destruct (main_persist_run str_of_summary all_news (len RSS_FEEDS) wc Hne)
      as (w0' & -> & Hc & Hd).
    exists w0'. split; [reflexivity|]. split; [assumption|].
    rewrite Hd. unfold held_rows. now rewrite Hdb. }
  destruct (Hrun w) as (w1 & Hrun1 & Hcsv1 & Hdb1).
  destruct (Hrun w1) as (w2 & Hrun2 & Hcsv2 & Hdb2).
  exists w1, w2.
  assert (db_row_count w1 NEWS_DB
          = db_row_count w NEWS_DB + len (dedup all_news)) as Hc1.
  { unfold db_row_count, held_rows in *. rewrite Hdb1.
    unfold len. rewrite length_app. destruct (w_db w NEWS_DB); cbn; lia. }
  assert (db_row_count w2 NEWS_DB
          = db_row_count w1 NEWS_DB + len (dedup all_news)) as Hc2.
  { unfold db_row_count, held_rows in *. rewrite Hdb2, Hdb1.
    unfold len. rewrite length_app. lia. }
  repeat split; try assumption.
  - unfold csv_row_count. rewrite Hcsv1. cbn [csv_body].
    unfold len. now rewrite length_map.
  - unfold csv_row_count. now rewrite Hcsv1, Hcsv2.
  - rewrite Hdb2. unfold held_rows at 1. rewrite Hdb1.
    now rewrite <- app_assoc.
  - intros H0. lia.
Qed.

End Runs.

Lemma two_runs_file_constant_store_doubles_witness :
  exists w1 w2,
    main sample_network sample_strptime sample_detect_with (fun _ _ => 0)
      (fun _ => []) empty_world = (Normal tt, w1)
    /\ main sample_network sample_strptime sample_detect_with (fun _ _ => 0)
         (fun _ => []) w1 = (Normal tt, w2)
    /\ csv_row_count w1 NEWS_CSV = 1 /\ csv_row_count w2 NEWS_CSV = 1
    /\ db_row_count w1 NEWS_DB = 1 /\ db_row_count w2 NEWS_DB = 2.
Proof.
  destruct (two_runs_file_constant_store_doubles sample_network sample_strptime
              sample_detect_with (fun _ _ => 0) (fun _ => []) empty_world)
    as (w1 & w2 & Hrun1 & Hrun2 & Hcsv1 & Hcsv2 & Hdb1 & Hdb2 & _ & _);
    [vm_compute; discriminate|].
  exists w1, w2. split; [exact Hrun1|]. split; [exact Hrun2|].
  split; [exact Hcsv1|]. split; [now rewrite Hcsv2, Hcsv1|].
  split; [exact Hdb1|]. now rewrite Hdb2, Hdb1.
Defined.

(** * Further properties *)

(** ** More on text cleaning *)

Lemma lstrip_blank (s : pystr) : forallb isspace s = true -> lstrip s = [].
Proof.
  induction s as [|c s IH]; cbn [forallb lstrip]; [reflexivity|].
  intros H. apply andb_prop in H as [-> Hs]. auto.
Qed.

Lemma lstrip_length (s : pystr) : (List.length (lstrip s) <= List.length s)%nat.
Proof.
  induction s as [|c s IH]; cbn [lstrip]; [lia|].
  destruct (isspace c); cbn [List.length] in *; lia.
Qed.

Lemma strip_length (s : pystr) : (List.length (strip s) <= List.length s)%nat.
Proof.
  unfold strip. rewrite length_rev.
  pose proof (lstrip_length (rev (lstrip s))) as H1.
  rewrite length_rev in H1. pose proof (lstrip_length s). lia.
Qed.

Lemma sub_runs_length (cls : N -> bool) (s : pystr) : forall in_run,
  (List.length (sub_runs cls in_run s) <= List.length s)%nat.
Proof.
  induction s as [|c s IH]; intros in_run; cbn [sub_runs List.length]; [lia|].
  destruct (cls c), in_run; cbn [List.length];
    try (specialize (IH true); lia); specialize (IH false); lia.
Qed.

Lemma lstrip_filter (keep : N -> bool) (s : pystr) :
  (forall c, isspace c = true -> keep c = false) ->
  filter keep (lstrip s) = filter keep s.
Proof.
  intros Hk. induction s as [|c s IH]; cbn [lstrip]; [reflexivity|].
  destruct (isspace c) eqn:Hc; [|reflexivity].
  cbn [filter]. now rewrite (Hk c Hc).
Qed.

Lemma strip_filter (keep : N -> bool) (s : pystr) :
  (forall c, isspace c = true -> keep c = false) ->
  filter keep (strip s) = filter keep s.
Proof.
  intros Hk. unfold strip.
  rewrite filter_rev, lstrip_filter, filter_rev, rev_involutive by assumption.
  now apply lstrip_filter.
Qed.

Lemma sub_runs_filter (cls keep : N -> bool) (s : pystr) : forall in_run,
  (forall c, cls c = true -> keep c = false) -> keep SPACE = false ->
  filter keep (sub_runs cls in_run s) = filter keep s.
Proof.
  intros in_run Hk Hsp. revert in_run.
  induction s as [|c s IH]; intros in_run; cbn [sub_runs]; [reflexivity|].
  destruct (cls c) eqn:Hc.
  - cbn [filter]. rewrite (Hk c Hc).
    destruct in_run; cbn [filter]; rewrite ?Hsp; apply IH.
  - cbn [filter]. now rewrite IH.
Qed.

Lemma plain_char_not_space (c : N) : isspace c = true -> plain_char c = false.
Proof. unfold plain_char. intros ->. apply andb_false_r. Qed.

Lemma plain_char_ascii (c : N) : non_ascii c = true -> plain_char c = false.
Proof.
  unfold plain_char, non_ascii. intros H. apply N.ltb_lt in H.
  assert ((c <? 128) = false) as -> by (apply N.ltb_ge; lia). reflexivity.
Qed.

(** X1: a text made of white space only is cleaned to the empty string. *)
Theorem clean_text_blank (s : pystr) :
  forallb isspace s = true -> clean_text s = [].
Proof.
  intros H. destruct s as [|c s]; [reflexivity|].
  unfold clean_text, collapse_whitespace, strip.
  rewrite (lstrip_blank _ H). reflexivity.
Qed.

Lemma clean_text_blank_witness : clean_text [32; 9; 10; 160; 8195] = [].
Proof. apply clean_text_blank. reflexivity. Defined.

(** X2: cleaning never makes a text longer, and it keeps the 7-bit
    characters that are not white space, all of them and in their order. *)
Theorem clean_text_keeps_plain_chars (s : pystr) :
  (List.length (clean_text s) <= List.length s)%nat
  /\ filter plain_char (clean_text s) = filter plain_char s.
Proof.
  destruct s as [|c s]; [split; reflexivity|].
  unfold clean_text, collapse_whitespace, re_sub_plus. split.
  - pose proof (sub_runs_length non_ascii
                  (sub_runs isspace false (strip (c :: s))) false).
    pose proof (sub_runs_length isspace (strip (c :: s)) false).
    pose proof (strip_length (c :: s)). lia.
  - rewrite sub_runs_filter by (auto using plain_char_ascii).
    rewrite sub_runs_filter by (auto using plain_char_not_space).
    apply strip_filter, plain_char_not_space.
Qed.

Lemma lstrip_starts (s : pystr) : starts_in isspace (lstrip s) = false.
Proof.
  induction s as [|c s IH]; cbn [lstrip]; [reflexivity|].
  destruct (isspace c) eqn:Hc; [assumption|]. cbn [starts_in]. exact Hc.
Qed.

Lemma lstrip_id (s : pystr) : starts_in isspace s = false -> lstrip s = s.
Proof. destruct s as [|c s]; cbn [starts_in lstrip]; [reflexivity|]. now intros ->. Qed.

Lemma lstrip_snoc (s : pystr) (c : N) :
  isspace c = false -> lstrip (s ++ [c]) = lstrip s ++ [c].
Proof.
  intros Hc. induction s as [|x s IH]; cbn [app lstrip].
  - now rewrite Hc.
  - destruct (isspace x); [assumption|reflexivity].
Qed.

Lemma strip_ends (s : pystr) :
  starts_in isspace (strip s) = false /\ ends_in isspace (strip s) = false.
Proof.
  unfold strip, ends_in. rewrite rev_involutive. split; [|apply lstrip_starts].
  pose proof (lstrip_starts s) as Hs.
  destruct (lstrip s) as [|c a]; [reflexivity|].
  cbn [starts_in] in Hs. cbn [rev].
  rewrite lstrip_snoc by assumption. rewrite rev_app_distr. cbn [rev app starts_in].
  exact Hs.
Qed.

Lemma ends_in_cons (cls : N -> bool) (c : N) (s : pystr) :
  s <> [] -> ends_in cls (c :: s) = ends_in cls s.
Proof.
  intros Hne. unfold ends_in. cbn [rev].
  destruct (rev s) as [|x r] eqn:Hr; [|reflexivity].
  apply (f_equal (@rev N)) in Hr. rewrite rev_involutive in Hr. contradiction.
Qed.

Lemma ends_in_tail (cls : N -> bool) (c : N) (s : pystr) :
  ends_in cls (c :: s) = false -> ends_in cls s = false.
Proof.
  destruct s as [|x s]; [reflexivity|]. now rewrite ends_in_cons.
Qed.

(** The white-space pass leaves a tidy text. *)
Lemma sub_runs_tidy_from (s : pystr) : forall in_run,
  ends_in isspace s = false -> (s = [] -> in_run = false) ->
  tidy_from in_run (sub_runs isspace in_run s) = true.
Proof.
  induction s as [|c s IH]; intros in_run Hend Hnil; cbn [sub_runs].
  - rewrite Hnil by reflexivity. reflexivity.
  - assert (isspace c = true -> s <> []) as Hs.
    { intros Hc ->. unfold ends_in in Hend. cbn in Hend. congruence. }
    pose proof (ends_in_tail _ _ _ Hend) as Hend'.
    destruct (isspace c) eqn:Hc.
    + destruct in_run.
      * apply IH; [assumption|]. intros ->. now destruct Hs.
      * cbn [tidy_from]. change (isspace SPACE) with true. cbn.
        apply IH; [assumption|]. intros ->. now destruct Hs.
    + cbn [tidy_from]. rewrite Hc. apply IH; auto.
Qed.

Lemma collapse_whitespace_tidy (s : pystr) : tidy (collapse_whitespace s) = true.
Proof.
  unfold collapse_whitespace, re_sub_plus.
  destruct (strip_ends s) as [Hstart Hend].
  destruct (strip s) as [|c t] eqn:Ht; [reflexivity|].
  cbn [starts_in] in Hstart.
  pose proof (sub_runs_tidy_from (c :: t) false Hend ltac:(discriminate)) as H.
  cbn [sub_runs] in *. rewrite Hstart in *. cbn [tidy tidy_from] in *.
  now rewrite Hstart in *.
Qed.

(** A tidy text goes through the white-space pass unchanged. *)
Lemma tidy_from_sub_runs (s : pystr) : forall prev,
  tidy_from prev s = true -> sub_runs isspace prev s = s.
Proof.
  induction s as [|c s IH]; intros prev H; cbn [sub_runs tidy_from] in *;
    [reflexivity|].
  destruct (isspace c) eqn:Hc.
  - apply andb_prop in H as [H Hr]. apply andb_prop in H as [Hsp Hp].
    apply N.eqb_eq in Hsp. apply negb_true_iff in Hp. subst c prev.
    f_equal. now apply IH.
  - f_equal. now apply IH.
Qed.

Lemma tidy_from_ends (s : pystr) : forall prev,
  tidy_from prev s = true -> s <> [] -> ends_in isspace s = false.
Proof.
  induction s as [|c s IH]; intros prev H Hne; [congruence|].
  cbn [tidy_from] in H. destruct s as [|x s].
  - unfold ends_in. cbn. destruct (isspace c); [|reflexivity].
    cbn in H. now rewrite andb_false_r in H.
  - rewrite ends_in_cons by discriminate.
    destruct (isspace c).
    + apply andb_prop in H as [_ H]. apply (IH true); [assumption|discriminate].
    + apply (IH false); [assumption|discriminate].
Qed.

Lemma tidy_starts (s : pystr) : tidy s = true -> starts_in isspace s = false.
Proof.
  destruct s as [|c s]; [reflexivity|]. cbn [tidy tidy_from starts_in].
  destruct (isspace c); [|reflexivity]. now rewrite andb_false_r.
Qed.

Lemma tidy_collapse (s : pystr) : tidy s = true -> collapse_whitespace s = s.
Proof.
  intros H. pose proof (tidy_starts s H) as Hstart.
  destruct s as [|c s]; [reflexivity|].
  assert (strip (c :: s) = c :: s) as Hstrip.
  { unfold strip. rewrite (lstrip_id _ Hstart).
    rewrite lstrip_id, rev_involutive; [reflexivity|].
    apply (tidy_from_ends (c :: s) true); [exact H|discriminate]. }
  unfold collapse_whitespace, re_sub_plus. rewrite Hstrip.
  cbn [tidy] in H. apply tidy_from_sub_runs in H.
  cbn [starts_in] in Hstart. cbn [sub_runs] in *. now rewrite Hstart in *.
Qed.

Lemma has_double_space_cons (a b : N) (s : pystr) :
  has_double_space (a :: b :: s)
  = ((a =? SPACE) && (b =? SPACE)) || has_double_space (b :: s).
Proof. reflexivity. Qed.

Lemma tidy_from_no_double_space (s : pystr) : forall prev,
  tidy_from prev s = true -> has_double_space s = false.
Proof.
  induction s as [|a s IH]; intros prev H; [reflexivity|].
  destruct s as [|b s]; [reflexivity|].
  rewrite has_double_space_cons. cbn [tidy_from] in H.
  destruct (isspace a) eqn:Ha.
  - apply andb_prop in H as [_ H]. rewrite (IH true H), orb_false_r.
    cbn [tidy_from] in H. destruct (b =? SPACE) eqn:Hb; [|apply andb_false_r].
    apply N.eqb_eq in Hb. subst b. change (isspace SPACE) with true in H.
    cbn in H. discriminate.
  - rewrite (IH false H), orb_false_r.
    destruct (a =? SPACE) eqn:Hsp; [|reflexivity].
    apply N.eqb_eq in Hsp. subst a. discriminate.
Qed.

(** X3: on a text of 7-bit characters [clean_text] only trims and
    collapses white space: the result is tidy (single plain spaces
    between words, none at either end), and cleaning it again changes
    nothing. *)
Theorem clean_text_ascii_tidy (s : pystr) :
  forallb (fun c => negb (non_ascii c)) s = true ->
  clean_text s = collapse_whitespace s
  /\ tidy (clean_text s) = true
  /\ has_double_space (clean_text s) = false
  /\ clean_text (clean_text s) = clean_text s.
Proof.
  intros Hascii.
  assert (forallb (fun c => negb (non_ascii c)) (collapse_whitespace s) = true)
    as Hout.
  { apply forallb_forall. intros c Hc.
    unfold collapse_whitespace, re_sub_plus in Hc.
    apply sub_runs_In in Hc as [->|[Hc _]]; [reflexivity|].
    rewrite forallb_forall in Hascii. apply Hascii.
    unfold strip in Hc. apply in_rev in Hc.
    assert (forall t x, In x (lstrip t) -> In x t) as Hl.
    { induction t as [|y t IHt]; cbn [lstrip]; [auto|].
      intros x. destruct (isspace y); [right; auto|auto]. }
    apply Hl, in_rev, Hl in Hc. exact Hc. }
  assert (forall t, forallb (fun c => negb (non_ascii c)) (collapse_whitespace t) = true ->
                    clean_text t = collapse_whitespace t) as Hclean.
  { intros [|x t] Ht; [reflexivity|].
    unfold clean_text, re_sub_plus. now apply sub_runs_outside. }
  pose proof (collapse_whitespace_tidy s) as Htidy.
  rewrite (Hclean s Hout).
  split; [reflexivity|]. split; [assumption|]. split.
  - destruct (collapse_whitespace s) as [|c t] eqn:Hc; [reflexivity|].
    now apply (tidy_from_no_double_space _ true).
  - rewrite Hclean; rewrite (tidy_collapse _ Htidy); [reflexivity|assumption].
Qed.

Lemma clean_text_ascii_tidy_witness :
  clean_text (py "  Rain " ++ [TAB] ++ py " again  ") = py "Rain again"
  /\ clean_text (clean_text (py "  Rain " ++ [TAB] ++ py " again  "))
     = clean_text (py "  Rain " ++ [TAB] ++ py " again  ").
Proof.
  destruct (clean_text_ascii_tidy (py "  Rain " ++ [TAB] ++ py " again  ")) as (H1 & _ & _ & H4);
    [reflexivity|].
  split; [rewrite H1; reflexivity|exact H4].
Defined.

(** ** More on the feed parser *)

Section ParserMore.

Variable feedparser_parse : pystr -> result parsed_feed.
Variable strptime : pystr -> result datetime.
Variable detect_with : N -> pystr -> result pystr.

Lemma clean_text_seven_bit (s : pystr) :
  forallb seven_bit_no_layout (clean_text s) = true.
Proof. apply forallb_forall. intros c. apply clean_text_chars. Qed.

(** The loop resumes after a prefix of the entries where it stood. *)
Lemma parse_entries_app (os_entropy : nat -> N) (fi : feed_info)
    (es1 es2 : list entry) : forall acc acc',
  parse_entries strptime detect_with os_entropy fi es1 acc = (Normal tt, acc') ->
  parse_entries strptime detect_with os_entropy fi (es1 ++ es2) acc
  = parse_entries strptime detect_with os_entropy fi es2 acc'.
Proof.
  induction es1 as [|e es1 IH]; intros acc acc' H; cbn [parse_entries app] in *.
  - now injection H as <-.
  - destruct (parse_entry strptime detect_with os_entropy fi (List.length acc) e);
      [now apply IH|discriminate].
Qed.

(** Whatever the loop returns, it is made of what it was given and of
    records built by [parse_entry], no more than one per entry. *)
Lemma parse_entries_built (os_entropy : nat -> N) (fi : feed_info)
    (P : news -> Prop) (es : list entry) :
  (forall n e item,
      parse_entry strptime detect_with os_entropy fi n e = Normal item -> P item) ->
  forall acc, Forall P acc ->
  Forall P (snd (parse_entries strptime detect_with os_entropy fi es acc))
  /\ (List.length (snd (parse_entries strptime detect_with os_entropy fi es acc))
      <= List.length acc + List.length es)%nat.
Proof.
  intros Hitem. induction es as [|e es IH]; intros acc Hacc;
    cbn [parse_entries].
  - cbn [snd List.length]. split; [assumption|lia].
  - destruct (parse_entry strptime detect_with os_entropy fi (List.length acc) e)
      as [item|x] eqn:He.
    + destruct (IH (acc ++ [item])) as [HP Hlen].
      { apply Forall_app. split; [assumption|]. constructor; [|constructor].
        eapply Hitem; eassumption. }
      split; [assumption|]. rewrite length_app in Hlen. cbn [List.length] in *. lia.
    + cbn [snd List.length]. split; [assumption|lia].
Qed.

Lemma parse_rss_feed_items (os_entropy : nat -> N) (fi : feed_info)
    (log : list log_entry) :
  exists news_items line,
    parse_rss_feed feedparser_parse strptime detect_with os_entropy fi log
    = (Normal news_items, log ++ [line])
    /\ match feedparser_parse (fi_url fi) with
       | Raise _ => news_items = []
       | Normal feed =>
           if bozo feed then news_items = []
           else news_items
                = snd (parse_entries strptime detect_with os_entropy fi
                         (entries feed) [])
       end.
Proof.
  unfold parse_rss_feed, parse_rss_feed_try.
  destruct (feedparser_parse (fi_url fi)) as [feed|e].
  - destruct (bozo feed); [do 2 eexists; split; reflexivity|].
    destruct (parse_entries strptime detect_with os_entropy fi (entries feed) [])
      as [[u|e] news_items].
    + do 2 eexists. split; reflexivity.
    + destruct (exn_class_eqb (exn_cls e) URLError);
        do 2 eexists; split; reflexivity.
  - destruct (exn_class_eqb (exn_cls e) URLError);
      do 2 eexists; split; reflexivity.
Qed.

Lemma parse_entry_fields (os_entropy : nat -> N) (fi : feed_info) (n : nat)
    (e : entry) (item : news) :
  parse_entry strptime detect_with os_entropy fi n e = Normal item ->
  country item = fi_country fi /\ source item = fi_source fi
  /\ title item = clean_text (get (e_title e) (py "No Title"))
  /\ description item
     = clean_text (get (e_summary e) (get (e_description e) (py "No Description")))
  /\ url item = get (e_link e) (py "No URL")
  /\ normalize_pub_date strptime
       (get (e_published e) (get (e_updated e) UNKNOWN_DATE))
     = Normal (pub_date item)
  /\ detect_language detect_with 0 (title item ++ py " " ++ description item)
     = Normal (language item).
Proof.
  unfold parse_entry.
  destruct (normalize_pub_date strptime _) as [d|x]; [|discriminate].
  destruct (detect_language detect_with _ _) as [l|x] eqn:Hl; [|discriminate].
  intros H. injection H as <-. cbn [country source title description url
                                      pub_date language].
  repeat split. exact Hl.
Qed.

(** X4: whatever the libraries do, [parse_rss_feed] returns a list and
    writes one line to the log; the list has at most one record per entry
    of the feed, none when the fetch raises or the document is flagged,
    and every record carries the country and the source of the
    descriptor. *)
Theorem parse_rss_feed_records_of_source (os_entropy : nat -> N)
    (fi : feed_info) (log : list log_entry) :
  exists news_items line,
    parse_rss_feed feedparser_parse strptime detect_with os_entropy fi log
    = (Normal news_items, log ++ [line])
    /\ Forall (fun r => country r = fi_country fi /\ source r = fi_source fi)
         news_items
    /\ match feedparser_parse (fi_url fi) with
       | Raise _ => news_items = []
       | Normal feed =>
           if bozo feed then news_items = []
           else (List.length news_items <= List.length (entries feed))%nat
       end.
Proof.
  destruct (parse_rss_feed_items os_entropy fi log)
    as (news_items & line & Hrun & Hitems).
  exists news_items, line. split; [exact Hrun|].
  destruct (feedparser_parse (fi_url fi)) as [feed|e];
    [destruct (bozo feed)|]; subst news_items; try (split; [constructor|reflexivity]).
  destruct (parse_entries_built os_entropy fi
              (fun r => country r = fi_country fi /\ source r = fi_source fi)
              (entries feed)) with (acc := @nil news) as [HP Hlen].
  - intros n e item He. apply parse_entry_fields in He. tauto.
  - constructor.
  - split; [assumption|]. cbn [List.length] in Hlen. lia.
Qed.

(** X5: the invariant of the records.  When [strptime] returns valid
    dates, every record of [parse_rss_feed] has a cleaned title and a
    cleaned description (7-bit characters, no white space but the plain
    space), and its publication date is [Unknown] or the rendering of a
    valid date, which is of the form [YYYY-MM-DD HH:MM:SS] when the year
    is 1000 or later. *)
Theorem parse_rss_feed_well_formed (os_entropy : nat -> N)
    (fi : feed_info) (log : list log_entry) :
  (forall s d, strptime s = Normal d -> valid_datetime d = true) ->
  exists news_items log',
    parse_rss_feed feedparser_parse strptime detect_with os_entropy fi log
    = (Normal news_items, log')
    /\ Forall well_formed_news news_items.
Proof.
  intros Hvalid.
  destruct (parse_rss_feed_items os_entropy fi log)
    as (news_items & line & Hrun & Hitems).
  exists news_items, (log ++ [line]). split; [exact Hrun|].
  destruct (feedparser_parse (fi_url fi)) as [feed|e];
    [destruct (bozo feed)|]; subst news_items; try constructor.
  apply (parse_entries_built os_entropy fi well_formed_news (entries feed));
    [|constructor].
  intros n e item He.
  apply parse_entry_fields in He as (_ & _ & Ht & Hd & _ & Hp & _).
  unfold well_formed_news. rewrite Ht, Hd, !clean_text_seven_bit.
  split; [reflexivity|]. split; [reflexivity|].
  unfold normalize_pub_date in Hp.
  destruct (pystr_eqb _ UNKNOWN_DATE) eqn:Hu; cbn [negb try_except] in Hp.
  - injection Hp as <-. now left.
  - destruct (strptime _) as [d|x] eqn:Hs; cbn [try_except] in Hp.
    + injection Hp as <-. right. exists d. pose proof (Hvalid _ _ Hs) as Hv.
      split; [assumption|]. split; [reflexivity|].
      intros Hlo. now apply strftime_canonical.
    + destruct (catches_value_or_type_error x); [|discriminate].
      injection Hp as <-. now left.
Qed.

(** X6: records appended before an exception are kept.  When the loop
    has built [news_items] from the first entries and the next entry
    raises an exception that the date handling does not catch, the
    parser logs the error and returns [news_items] as it stands, not an
    empty list. *)
Theorem parse_rss_feed_keeps_items_before_raise (os_entropy : nat -> N)
    (fi : feed_info) (log : list log_entry) (feed : parsed_feed)
    (es1 es2 : list entry) (e : entry) (news_items : list news) (x : exn) :
  feedparser_parse (fi_url fi) = Normal feed -> bozo feed = false ->
  entries feed = es1 ++ e :: es2 ->
  parse_entries strptime detect_with os_entropy fi es1 [] = (Normal tt, news_items) ->
  parse_entry strptime detect_with os_entropy fi (List.length news_items) e = Raise x ->
  parse_rss_feed feedparser_parse strptime detect_with os_entropy fi log
  = (Normal news_items,
     log ++ [mkLog ERROR
               (if exn_class_eqb (exn_cls x) URLError
                then network_error_msg fi (exn_str x)
                else unexpected_error_msg fi (exn_str x))]).
Proof.
  intros Hfetch Hbozo Hes H1 He.
  unfold parse_rss_feed, parse_rss_feed_try. rewrite Hfetch, Hbozo, Hes.
  rewrite (parse_entries_app os_entropy fi es1 (e :: es2) [] news_items H1).
  cbn [parse_entries]. rewrite He.
  destruct (exn_class_eqb (exn_cls x) URLError); reflexivity.
Qed.

End ParserMore.

Lemma parse_rss_feed_well_formed_witness :
  exists news_items log',
    parse_rss_feed sample_feedparser_parse sample_strptime sample_detect_with
      (fun _ => 0) sample_feed_a []
    = (Normal news_items, log')
    /\ Forall well_formed_news news_items.
Proof.
  exact (parse_rss_feed_well_formed sample_feedparser_parse sample_strptime
           sample_detect_with (fun _ => 0) sample_feed_a []
           sample_strptime_valid).
Defined.

Lemma parse_rss_feed_keeps_items_before_raise_witness :
  parse_rss_feed faulty_network faulty_strptime sample_detect_with
    (fun _ => 0) sample_feed_a []
  = (Normal [ mkNews (py "A-land") (py "A News") (py "Rain again")
                (py "2024-01-01 10:30:00") (py "More rain") (py "http://a/1")
                (py "en") ],
     [mkLog ERROR (py "Unexpected error for A News (A-land): internal error")]).
Proof.
  exact (parse_rss_feed_keeps_items_before_raise faulty_network
           faulty_strptime sample_detect_with (fun _ => 0) sample_feed_a []
           (mkParsed false [] [sample_entry; faulty_entry; sample_entry])
           [sample_entry] [sample_entry] faulty_entry
           [ mkNews (py "A-land") (py "A News") (py "Rain again")
               (py "2024-01-01 10:30:00") (py "More rain") (py "http://a/1")
               (py "en") ]
           (mkExn OtherException (py "internal error"))
           eq_refl eq_refl eq_refl eq_refl eq_refl).
Defined.

(** ** More on the writers *)

Lemma keep_first_subsequence (rows : list news) : forall seen,
  subsequence (keep_first seen rows) rows.
Proof.
  induction rows as [|r rows IH]; intros seen; cbn [keep_first].
  - constructor.
  - destruct (seen_before (dedup_key r) seen); constructor; apply IH.
Qed.

Lemma subsequence_length {A : Type} (l1 l2 : list A) :
  subsequence l1 l2 -> (List.length l1 <= List.length l2)%nat.
Proof. induction 1; cbn [List.length]; lia. Qed.

Lemma subsequence_filter {A : Type} (f : A -> bool) (l1 l2 : list A) :
  subsequence l1 l2 -> subsequence (filter f l1) (filter f l2).
Proof.
  induction 1 as [|x l1 l2 H IH|x l1 l2 H IH]; cbn [filter].
  - constructor.
  - destruct (f x); [constructor|]; assumption.
  - destruct (f x); [constructor|]; assumption.
Qed.

Lemma subsequence_In {A : Type} (l1 l2 : list A) (x : A) :
  subsequence l1 l2 -> In x l1 -> In x l2.
Proof.
  induction 1 as [|y l1 l2 H IH|y l1 l2 H IH]; cbn [In]; intuition.
Qed.

(** X7: the writers never reorder the records nor invent one: what they
    keep of a batch is the batch with some records left out.  Nothing is
    left out exactly when no two records of the batch share
    [(title, url)]. *)
Theorem dedup_subsequence (data : list news) :
  subsequence (dedup data) data
  /\ (List.length (dedup data) <= List.length data)%nat
  /\ (dedup data = data <-> NoDup (map dedup_key data)).
Proof.
  split; [apply keep_first_subsequence|]. split.
  - apply subsequence_length, keep_first_subsequence.
  - split.
    + intros H. rewrite <- H. apply keep_first_sound.
    + intros H. apply keep_first_fixed; [assumption|]. intros r _ [].
Qed.

(** X8: what [save_to_csv] touches.  It always returns; the number it
    returns is the number of rows of the file it wrote, at most the
    number of records given; it adds one line to the log and leaves every
    other file, every database and the console as they were. *)
Theorem save_to_csv_frame (data : list news) (filename : pystr) (w : world) :
  exists n w',
    save_to_csv data filename w = (Normal n, w')
    /\ n = csv_row_count w' filename /\ n <= len data
    /\ w_log w' = w_log w ++ [mkLog INFO (saved_msg n filename)]
    /\ (forall other, pystr_eqb other filename = false ->
                      w_csv w' other = w_csv w other)
    /\ w_db w' = w_db w /\ w_stdout w' = w_stdout w.
Proof.
  rewrite save_to_csv_run. do 2 eexists. split; [reflexivity|].
  cbn [w_log w_csv w_db w_stdout]. repeat split.
  - unfold csv_row_count. cbn [w_csv]. rewrite update_same. cbn [csv_body].
    unfold len. now rewrite length_map.
  - unfold len, dedup.
    pose proof (subsequence_length _ _ (keep_first_subsequence data [])). lia.
  - intros other H. now apply update_other.
Qed.

(** X9: what [save_to_sqlite] touches.  It never removes or changes a
    row the table holds: the rows after the call are the rows before it
    followed by the rows added, which are the deduplicated batch when it
    returns (their number is what it returns) and none when it raises;
    in that case the table still does not exist and no line went to the
    log.  The tables of other databases, the files and the console stay
    as they were. *)
Theorem save_to_sqlite_frame (data : list news) (db_name : pystr) (w : world) :
  exists added,
    held_rows (snd (save_to_sqlite data db_name w)) db_name
    = held_rows w db_name ++ added
    /\ match fst (save_to_sqlite data db_name w) with
       | Normal n => added = dedup data /\ n = len added
       | Raise _ =>
           added = []
           /\ w_db (snd (save_to_sqlite data db_name w)) db_name = None
           /\ w_log (snd (save_to_sqlite data db_name w)) = w_log w
       end
    /\ (forall other, pystr_eqb other db_name = false ->
          w_db (snd (save_to_sqlite data db_name w)) other = w_db w other)
    /\ w_csv (snd (save_to_sqlite data db_name w)) = w_csv w
    /\ w_stdout (snd (save_to_sqlite data db_name w)) = w_stdout w.
Proof.
  destruct data as [|r data].
  - destruct (w_db w db_name) as [old|] eqn:Hdb.
    + rewrite save_to_sqlite_run by (right; congruence).
      exists []. cbn [fst snd w_db w_csv w_stdout]. repeat split.
      * unfold held_rows at 1. cbn [w_db]. now rewrite update_same.
      * intros other H. now apply update_other.
    + rewrite save_to_sqlite_no_table by assumption.
      exists []. cbn [fst snd]. rewrite app_nil_r. repeat split.
      exact Hdb.
  - rewrite save_to_sqlite_run by (left; discriminate).
    exists (dedup (r :: data)). cbn [fst snd w_db w_csv w_stdout]. repeat split.
    + unfold held_rows at 1. cbn [w_db]. now rewrite update_same.
    + intros other H. now apply update_other.
Qed.

Lemma held_rows_count (w : world) (db_name : pystr) :
  db_row_count w db_name = len (held_rows w db_name).
Proof.
  unfold db_row_count, held_rows. now destruct (w_db w db_name).
Qed.

Lemma len_app {A : Type} (l1 l2 : list A) : len (l1 ++ l2) = len l1 + len l2.
Proof. unfold len. rewrite length_app. lia. Qed.

Lemma len_concat_repeat {A : Type} (b : list A) (k : nat) :
  len (List.concat (repeat b k)) = N.of_nat k * len b.
Proof.
  induction k as [|k IH]; [reflexivity|].
  cbn [repeat List.concat]. rewrite len_app, IH. lia.
Qed.

(** X10: the store grows by one deduplicated batch per run, with no
    bound: after [k] calls with the same records the table holds the
    rows it held followed by [k] copies of the deduplicated batch. *)
Theorem save_to_sqlite_times_grows (k : nat) (data : list news)
    (db_name : pystr) : forall w,
  data <> [] ->
  exists w',
    save_to_sqlite_times k data db_name w = (Normal tt, w')
    /\ held_rows w' db_name
       = held_rows w db_name ++ List.concat (repeat (dedup data) k)
    /\ db_row_count w' db_name
       = db_row_count w db_name + N.of_nat k * len (dedup data).
Proof.
  intros w Hne. revert w.
  induction k as [|k IH]; intros w; cbn [save_to_sqlite_times].
  - exists w. unfold ret. cbn [repeat List.concat]. rewrite app_nil_r.
    repeat split. lia.
  - unfold bind at 1. rewrite save_to_sqlite_run by (left; assumption).
    match goal with
    | |- context [save_to_sqlite_times k data db_name ?w1] =>
        destruct (IH w1) as (w' & -> & Hrows & Hcount);
        assert (held_rows w1 db_name = held_rows w db_name ++ dedup data) as H1
          by (unfold held_rows at 1; cbn [w_db]; now rewrite update_same)
    end.
    exists w'. split; [reflexivity|].
    rewrite H1 in Hrows.
    assert (held_rows w' db_name
            = held_rows w db_name ++ List.concat (repeat (dedup data) (S k))) as Hr.
    { rewrite Hrows. cbn [repeat List.concat]. now rewrite <- app_assoc. }
    split; [exact Hr|].
    rewrite !held_rows_count, Hr, len_app, len_concat_repeat. reflexivity.
Qed.

Lemma save_to_sqlite_times_grows_witness :
  exists w',
    save_to_sqlite_times 3 sample_batch NEWS_DB empty_world = (Normal tt, w')
    /\ db_row_count w' NEWS_DB = 9.
Proof.
  destruct (save_to_sqlite_times_grows 3 sample_batch NEWS_DB empty_world)
    as (w' & Hrun & _ & Hcount); [discriminate|].
  exists w'. split; [exact Hrun|]. rewrite Hcount. reflexivity.
Defined.

(** ** More on the summary *)

(** Two strictly increasing lists of labels with the same elements are
    the same list. *)
Lemma sorted_same_elements (l1 : list (pystr * pystr)) : forall l2,
  StronglySorted key_lt l1 -> StronglySorted key_lt l2 ->
  (forall k, In k l1 <-> In k l2) -> l1 = l2.
Proof.
  induction l1 as [|h1 t1 IH]; intros [|h2 t2] H1 H2 Hsame.
  - reflexivity.
  - destruct (proj2 (Hsame h2)); now left.
  - destruct (proj1 (Hsame h1)); now left.
  - inversion H1 as [|? ? Hs1 Hall1]; inversion H2 as [|? ? Hs2 Hall2]; subst.
    rewrite Forall_forall in Hall1, Hall2.
    assert (h1 = h2) as Hh.
    { destruct (proj1 (Hsame h1) (or_introl eq_refl)) as [E|Hin1]; [now symmetry|].
      destruct (proj2 (Hsame h2) (or_introl eq_refl)) as [E|Hin2]; [assumption|].
      destruct (key_lt_irrefl h1).
      eapply key_lt_trans; [apply Hall1, Hin2|apply Hall2, Hin1]. }
    subst h2. f_equal. apply IH; try assumption.
    intros k. split; intros Hk.
    + destruct (proj1 (Hsame k) (or_intror Hk)) as [E|Hin]; [|assumption].
      subst k. destruct (key_lt_irrefl h1). now apply Hall1.
    + destruct (proj2 (Hsame k) (or_intror Hk)) as [E|Hin]; [|assumption].
      subst k. destruct (key_lt_irrefl h1). now apply Hall2.
Qed.

Lemma group_size_permutation (k : pystr * pystr) (l1 l2 : list news) :
  Permutation l1 l2 -> group_size k l1 = group_size k l2.
Proof.
  induction 1 as [|x l1 l2 H IH|x y l|l1 l2 l3 H12 IH12 H23 IH23].
  - reflexivity.
  - now rewrite !group_size_cons, IH.
  - rewrite !group_size_cons. lia.
  - congruence.
Qed.

Lemma group_keys_permutation (l1 l2 : list news) :
  Permutation l1 l2 -> group_keys l1 = group_keys l2.
Proof.
  intros H. apply sorted_same_elements; try apply group_keys_sorted.
  intros k. rewrite !group_keys_In, !in_map_iff.
  split; intros (r & Hk & Hr); exists r; split; try assumption.
  - eapply Permutation_in; eassumption.
  - eapply Permutation_in; [apply Permutation_sym|]; eassumption.
Qed.

(** X11: the summary does not depend on the order in which the records
    were collected: two lists with the same records, in any order, give
    the same summary, group for group and in the same order. *)
Theorem generate_summary_permutation (data data' : list news) :
  Permutation data data' -> generate_summary data = generate_summary data'.
Proof.
  intros H. destruct data as [|r data].
  - apply Permutation_nil in H. now subst.
  - destruct data' as [|r' data'].
    + apply Permutation_sym, Permutation_nil in H. discriminate.
    + rewrite !generate_summary_run by discriminate. unfold summary_rows.
      rewrite (group_keys_permutation _ _ H). f_equal. apply map_ext.
      intros k. now rewrite (group_size_permutation k _ _ H).
Qed.

Lemma generate_summary_permutation_witness :
  generate_summary (rev sample_batch) = generate_summary sample_batch.
Proof.
  apply generate_summary_permutation. apply Permutation_sym, Permutation_rev.
Defined.

(** X12: the summary may count more than is written, never less: for
    every [(country, source)] the writers keep at most as many records
    as the summary counts, and every source with a written record is a
    group of the summary. *)
Theorem written_rows_within_summary (data : list news) (k : pystr * pystr) :
  group_size k (dedup data) <= group_size k data
  /\ incl (group_keys (dedup data)) (group_keys data).
Proof.
  pose proof (keep_first_subsequence data []) as Hsub. fold (dedup data) in Hsub.
  split.
  - unfold group_size, len.
    pose proof (subsequence_length _ _
                  (subsequence_filter (fun r => key_eqb (group_key r) k) _ _ Hsub)).
    lia.
  - intros g Hg. apply group_keys_In. apply group_keys_In in Hg.
    apply in_map_iff in Hg as (r & <- & Hr). apply in_map.
    eapply subsequence_In; eassumption.
Qed.

(** ** More on the program *)

Section MainMore.

Variable feedparser_parse : pystr -> result parsed_feed.
Variable strptime : pystr -> result datetime.
Variable detect_with : N -> pystr -> result pystr.
Variable os_entropy : nat -> nat -> N.
Variable str_of_summary : list summary_row -> pystr.

(** The seed being fixed, the entropy offered plays no part. *)
Lemma parse_entries_entropy (en1 en2 : nat -> N) (fi : feed_info)
    (es : list entry) : forall acc,
  parse_entries strptime detect_with en1 fi es acc
  = parse_entries strptime detect_with en2 fi es acc.
Proof.
  induction es as [|e es IH]; intros acc; cbn [parse_entries]; [reflexivity|].
  change (parse_entry strptime detect_with en1 fi (List.length acc) e)
    with (parse_entry strptime detect_with en2 fi (List.length acc) e).
  destruct (parse_entry strptime detect_with en2 fi (List.length acc) e);
    [apply IH|reflexivity].
Qed.

Lemma feed_news_index (i j : nat) (fi : feed_info) :
  feed_news feedparser_parse strptime detect_with os_entropy i fi
  = feed_news feedparser_parse strptime detect_with os_entropy j fi.
Proof.
  unfold feed_news, parse_rss_feed, parse_rss_feed_try.
  destruct (feedparser_parse (fi_url fi)) as [feed|e]; [|reflexivity].
  destruct (bozo feed); [reflexivity|].
  now rewrite (parse_entries_entropy (os_entropy i) (os_entropy j)).
Qed.

Lemma collected_flat_map (feeds : list feed_info) : forall i,
  collected feedparser_parse strptime detect_with os_entropy feeds i
  = flat_map (feed_news feedparser_parse strptime detect_with os_entropy 0) feeds.
Proof.
  induction feeds as [|f feeds IH]; intros i; cbn [collected flat_map];
    [reflexivity|].
  now rewrite IH, (feed_news_index i 0).
Qed.

Lemma feed_news_fails (fi : feed_info) :
  feed_fails feedparser_parse fi = true ->
  feed_news feedparser_parse strptime detect_with os_entropy 0 fi = [].
Proof.
  unfold feed_fails, feed_news, parse_rss_feed, parse_rss_feed_try.
  destruct (feedparser_parse (fi_url fi)) as [feed|e].
  - now intros ->.
  - intros _. now destruct (exn_class_eqb (exn_cls e) URLError).
Qed.

(** The loop of [main] with the world it leaves. *)
Lemma main_collect_world (feeds : list feed_info) : forall i all_news w,
  exists lines,
    main_collect feedparser_parse strptime detect_with os_entropy
      feeds i all_news w
    = (Normal (all_news
               ++ collected feedparser_parse strptime detect_with os_entropy
                    feeds i),
       {| w_log := w_log w ++ lines; w_csv := w_csv w; w_db := w_db w;
          w_stdout := w_stdout w |})
    /\ List.length lines = (2 * List.length feeds)%nat.
Proof.
  induction feeds as [|feed rest IH]; intros i all_news w;
    cbn [main_collect collected].
  - exists []. unfold ret. rewrite !app_nil_r. split; [now destruct w|reflexivity].
  - unfold bind at 1. unfold logging at 1. unfold bind at 1.
    unfold parse_rss_feed_io at 1. cbn [w_log w_csv w_db w_stdout].
    match goal with
    | |- context [parse_rss_feed _ _ _ ?en feed ?lg] =>
        destruct (parse_rss_feed_log feedparser_parse strptime detect_with
                    en feed lg) as [line ->]
    end.
    fold (feed_news feedparser_parse strptime detect_with os_entropy i feed).
    match goal with
    | |- context [main_collect _ _ _ _ rest (S i) ?acc ?w0] =>
        destruct (IH (S i) acc w0) as (lines & -> & Hlen)
    end.
    cbn [w_log w_csv w_db w_stdout].
    eexists (_ :: _ :: lines). rewrite <- !app_assoc. cbn [app].
    split; [reflexivity|]. cbn [List.length]. lia.
Qed.

(** X14: a feed that fails takes nothing from the others.  With a feed
    whose fetch raises or whose document is flagged anywhere in the list,
    the loop of [main] ends with the very records it collects without that
    feed: those of the other feeds, in the order of the feeds. *)
Theorem failing_feed_contributes_nothing
    (before after : list feed_info) (feed : feed_info) (w : world) :
  feed_fails feedparser_parse feed = true ->
  exists all_news w1 w2,
    main_collect feedparser_parse strptime detect_with os_entropy
      (before ++ feed :: after) 0 [] w = (Normal all_news, w1)
    /\ main_collect feedparser_parse strptime detect_with os_entropy
         (before ++ after) 0 [] w = (Normal all_news, w2)
    /\ all_news
       = flat_map (feed_news feedparser_parse strptime detect_with os_entropy 0)
           before
         ++ flat_map (feed_news feedparser_parse strptime detect_with os_entropy 0)
              after.
Proof.
  intros Hfail.
  destruct (main_collect_world (before ++ feed :: after) 0 [] w)
    as (l1 & H1 & _).
  destruct (main_collect_world (before ++ after) 0 [] w) as (l2 & H2 & _).
  rewrite collected_flat_map in H1, H2. cbn [app] in H1, H2.
  rewrite flat_map_app in H1, H2. cbn [flat_map] in H1.
  rewrite (feed_news_fails feed Hfail) in H1. cbn [app] in H1.
  do 3 eexists. split; [exact H1|]. split; [exact H2|reflexivity].
Qed.

Lemma main_persist_world (all_news : list news) (feed_count : N) (w : world) :
  all_news <> [] ->
  main_persist str_of_summary all_news feed_count w
  = (Normal tt,
     {| w_log :=
          w_log w
          ++ [ mkLog INFO (saved_msg (len (dedup all_news)) NEWS_CSV);
               mkLog INFO (saved_msg (len (dedup all_news)) NEWS_DB);
               mkLog INFO (py "Summary: " ++ str_of_summary (summary_rows all_news));
               mkLog INFO (py "Summary saved to news_summary.csv") ];
        w_csv :=
          update
            (update (w_csv w) NEWS_CSV
               {| csv_header := NEWS_COLUMNS;
                  csv_body := map news_cells (dedup all_news) |})
            SUMMARY_CSV
            {| csv_header := SUMMARY_COLUMNS;
               csv_body := map summary_cells (summary_rows all_news) |};
        w_db := update (w_db w) NEWS_DB (held_rows w NEWS_DB ++ dedup all_news);
        w_stdout :=
          w_stdout w
          ++ [ py "Scraped " ++ str_of_N (len all_news) ++ py " news items from "
               ++ str_of_N feed_count ++ py " feeds.";
               py "Saved " ++ str_of_N (len (dedup all_news))
               ++ py " unique items to CSV and "
               ++ str_of_N (len (dedup all_news)) ++ py " to SQLite.";
               py "Summary of collected data:" ]
          ++ map summary_line (summary_rows all_news) |}).
Proof.
  intros Hne. unfold main_persist, bind.
  rewrite save_to_csv_run.
  rewrite save_to_sqlite_run by (left; assumption).
  unfold lift. rewrite generate_summary_run by assumption.
  unfold logging, summary_to_csv, write_csv, print.
  cbn [w_log w_csv w_db w_stdout]. rewrite print_all_run.
  cbn [w_log w_csv w_db w_stdout]. unfold held_rows. cbn [w_db].
  rewrite <- !app_assoc. cbn [app].
  assert (summary_rows all_news <> []) as Hs.
  { destruct all_news as [|r rest]; [congruence|].
    intros Hnil. apply (f_equal (map summary_key)) in Hnil.
    rewrite summary_rows_keys in Hnil. cbn [map] in Hnil.
    assert (In (group_key r) (group_keys (r :: rest))) as Hin
      by (apply group_keys_In; now left).
    rewrite Hnil in Hin. contradiction. }
  destruct (summary_rows all_news) eqn:Hrows; [congruence|].
  destruct all_news; [congruence|]. reflexivity.
Qed.

Lemma main_persist_no_records (feed_count : N) (w : world) :
  main_persist str_of_summary [] feed_count w
  = (Raise (match w_db w NEWS_DB with
            | None => NO_COLUMNS_ERROR
            | Some _ => KeyError_of (py "country")
            end),
     {| w_log :=
          w_log w
          ++ [mkLog INFO (saved_msg 0 NEWS_CSV)]
          ++ match w_db w NEWS_DB with
             | None => []
             | Some _ => [mkLog INFO (saved_msg 0 NEWS_DB)]
             end;
        w_csv := update (w_csv w) NEWS_CSV {| csv_header := []; csv_body := [] |};
        w_db := match w_db w NEWS_DB with
                | None => w_db w
                | Some rows => update (w_db w) NEWS_DB (rows ++ [])
                end;
        w_stdout := w_stdout w |}).
Proof.
  unfold main_persist, bind. rewrite save_to_csv_run.
  destruct (w_db w NEWS_DB) as [rows|] eqn:Hdb.
  - rewrite save_to_sqlite_run by (right; cbn [w_db]; congruence).
    unfold lift. rewrite generate_summary_no_columns.
    cbn [w_log w_csv w_db w_stdout]. unfold held_rows. cbn [w_db].
    rewrite Hdb, <- app_assoc. reflexivity.
  - rewrite save_to_sqlite_no_table by (cbn [w_db]; assumption).
    now rewrite app_nil_r.
Qed.

(** X15: what a run that has records leaves behind.  The summary file
    has one row per group of the summary under its four column names; the
    console gets three lines and then one line per group; the two counts
    of the second line, for the file and for the store, are the same
    number; four lines go to the log. *)
Theorem main_persist_report (all_news : list news) (feed_count : N) (w : world) :
  all_news <> [] ->
  exists summary w',
    generate_summary all_news = Normal summary
    /\ main_persist str_of_summary all_news feed_count w = (Normal tt, w')
    /\ w_csv w' SUMMARY_CSV
       = Some {| csv_header := SUMMARY_COLUMNS;
                 csv_body := map summary_cells summary |}
    /\ w_stdout w'
       = w_stdout w
         ++ [ py "Scraped " ++ str_of_N (len all_news) ++ py " news items from "
              ++ str_of_N feed_count ++ py " feeds.";
              py "Saved " ++ str_of_N (len (dedup all_news))
              ++ py " unique items to CSV and "
              ++ str_of_N (len (dedup all_news)) ++ py " to SQLite.";
              py "Summary of collected data:" ]
         ++ map summary_line summary
    /\ List.length (w_log w') = (List.length (w_log w) + 4)%nat.
Proof.
  intros Hne. exists (summary_rows all_news). eexists.
  split; [now apply generate_summary_run|].
  split; [now apply main_persist_world|].
  cbn [w_log w_csv w_stdout]. split; [now rewrite update_same|].
  split; [reflexivity|]. rewrite length_app. reflexivity.
Qed.

Lemma world_extends_trans (w1 w2 w3 : world) :
  world_extends w1 w2 -> world_extends w2 w3 -> world_extends w1 w3.
Proof.
  intros ([l1 Hl1] & [o1 Ho1] & [r1 Hr1] & Hc1 & Hd1)
         ([l2 Hl2] & [o2 Ho2] & [r2 Hr2] & Hc2 & Hd2).
  repeat split.
  - exists (l1 ++ l2). now rewrite Hl2, Hl1, app_assoc.
  - exists (o1 ++ o2). now rewrite Ho2, Ho1, app_assoc.
  - exists (r1 ++ r2). now rewrite Hr2, Hr1, app_assoc.
  - intros f H1 H2. now rewrite Hc2, Hc1.
  - intros d H. now rewrite Hd2, Hd1.
Qed.

Lemma main_persist_extends (all_news : list news) (feed_count : N) (w : world) :
  world_extends w (snd (main_persist str_of_summary all_news feed_count w)).
Proof.
  destruct all_news as [|r rest].
  - rewrite main_persist_no_records. cbn [snd]. unfold world_extends.
    cbn [w_log w_csv w_db w_stdout]. repeat split.
    + eexists. reflexivity.
    + exists []. now rewrite app_nil_r.
    + exists []. rewrite app_nil_r. unfold held_rows. cbn [w_db].
      destruct (w_db w NEWS_DB) as [rows|] eqn:Hdb.
      * now rewrite update_same, app_nil_r.
      * now rewrite Hdb.
    + intros f H1 H2. now apply update_other.
    + intros d H. destruct (w_db w NEWS_DB); [now apply update_other|reflexivity].
  - rewrite main_persist_world by discriminate. cbn [snd]. unfold world_extends.
    cbn [w_log w_csv w_db w_stdout]. repeat split.
    + eexists. reflexivity.
    + eexists. reflexivity.
    + eexists. unfold held_rows at 1. cbn [w_db]. now rewrite update_same.
    + intros f H1 H2. now rewrite !update_other.
    + intros d H. now apply update_other.
Qed.

(** X16: a run only adds.  Whether [main] ends or raises, the log and
    the console have grown at their end, the rows table [news] held are
    still there, in place, before any new one, and no file other than the
    two files of the program and no other database has changed. *)
Theorem main_world_extends (w : world) :
  world_extends w
    (snd (main feedparser_parse strptime detect_with os_entropy
            str_of_summary w)).
Proof.
  unfold main. unfold bind at 1.
  destruct (main_collect_world RSS_FEEDS 0 [] w) as (lines & -> & _).
  match goal with
  | |- context [main_persist _ ?news ?n ?wc] =>
      apply (world_extends_trans w wc); [|apply main_persist_extends]
  end.
  unfold world_extends. cbn [w_log w_csv w_db w_stdout]. repeat split.
  - eexists. reflexivity.
  - exists []. now rewrite app_nil_r.
  - exists []. now rewrite app_nil_r.
Qed.

(** X17: [main] ends normally exactly when the feeds gave at least one
    record.  With no record at all it raises, after the file of records
    has been written without rows: a [DatabaseError] when table [news]
    does not exist yet, a [KeyError] from the summary otherwise. *)
Theorem main_outcome (w : world) :
  match fst (main feedparser_parse strptime detect_with os_entropy
               str_of_summary w) with
  | Normal _ =>
      collected feedparser_parse strptime detect_with os_entropy RSS_FEEDS 0
      <> []
  | Raise e =>
      collected feedparser_parse strptime detect_with os_entropy RSS_FEEDS 0
      = []
      /\ exn_cls e = match w_db w NEWS_DB with
                     | None => DatabaseError
                     | Some _ => KeyError
                     end
      /\ w_csv (snd (main feedparser_parse strptime detect_with os_entropy
                       str_of_summary w)) NEWS_CSV
         = Some {| csv_header := []; csv_body := [] |}
  end.
Proof.
  destruct (main_collect_world RSS_FEEDS 0 [] w) as (lines & Hcol & _).
  cbn [app] in Hcol.
  match type of Hcol with
  | _ = (Normal ?news, ?wc) =>
      assert (main feedparser_parse strptime detect_with os_entropy
                str_of_summary w
              = main_persist str_of_summary news (len RSS_FEEDS) wc) as ->
        by (unfold main; unfold bind at 1; now rewrite Hcol)
  end.
  destruct (collected feedparser_parse strptime detect_with os_entropy
              RSS_FEEDS 0) as [|r rest] eqn:Hc.
  - rewrite main_persist_no_records. cbn [fst snd w_db w_csv].
    split; [reflexivity|]. split; [now destruct (w_db w NEWS_DB)|].
    now rewrite update_same.
  - rewrite main_persist_world by discriminate. cbn [fst]. discriminate.
Qed.

End MainMore.

Lemma failing_feed_contributes_nothing_witness :
  exists all_news w1 w2,
    main_collect sample_feedparser_parse sample_strptime sample_detect_with
      (fun _ _ => 0) ([sample_feed_a] ++ sample_feed_c :: [sample_feed_a]) 0 []
      empty_world = (Normal all_news, w1)
    /\ main_collect sample_feedparser_parse sample_strptime sample_detect_with
         (fun _ _ => 0) ([sample_feed_a] ++ [sample_feed_a]) 0 [] empty_world
       = (Normal all_news, w2)
    /\ List.length all_news = 4%nat.
Proof.
  destruct (failing_feed_contributes_nothing sample_feedparser_parse
              sample_strptime sample_detect_with (fun _ _ => 0)
              [sample_feed_a] [sample_feed_a] sample_feed_c empty_world)
    as (all_news & w1 & w2 & H1 & H2 & Hnews); [reflexivity|].
  exists all_news, w1, w2. split; [exact H1|]. split; [exact H2|].
  rewrite Hnews. reflexivity.
Defined.

Lemma main_persist_report_witness :
  exists summary w',
    generate_summary sample_batch = Normal summary
    /\ main_persist (fun _ => []) sample_batch 3 empty_world = (Normal tt, w')
    /\ List.length (w_stdout w') = 6%nat
    /\ csv_row_count w' SUMMARY_CSV = 3.
Proof.
  destruct (main_persist_report (fun _ => []) sample_batch 3 empty_world)
    as (summary & w' & Hsum & Hrun & Hcsv & Hout & _); [discriminate|].
  exists summary, w'. split; [exact Hsum|]. split; [exact Hrun|].
  injection Hsum as <-. split.
  - rewrite Hout. reflexivity.
  - unfold csv_row_count. rewrite Hcsv. reflexivity.
Defined.

(** ** Records and entries *)

Section Entries.

Variable feedparser_parse : pystr -> result parsed_feed.
Variable strptime : pystr -> result datetime.
Variable detect_with : N -> pystr -> result pystr.
Variable os_entropy : nat -> N.

Hypothesis strptime_raises :
  forall s e, strptime s = Raise e -> catches_value_or_type_error e = true.

Lemma parse_entries_in_order (fi : feed_info) (es : list entry) :
  forall acc,
  exists items,
    parse_entries strptime detect_with os_entropy fi es acc
    = (Normal tt, acc ++ items)
    /\ Forall2 (record_of_entry strptime detect_with fi) es items.
Proof.
  induction es as [|e es IH]; intros acc; cbn [parse_entries].
  - exists []. rewrite app_nil_r. split; [reflexivity|constructor].
  - destruct (parse_entry_returns strptime detect_with os_entropy
                strptime_raises fi (List.length acc) e) as (item & He & _).
    rewrite He. destruct (IH (acc ++ [item])) as (items & -> & Hall).
    exists (item :: items). rewrite <- app_assoc. split; [reflexivity|].
    constructor; [|assumption].
    apply (parse_entry_fields strptime detect_with os_entropy fi _ _ _ He).
Qed.

(** X18: a feed that is fetched and not flagged gives its entries back
    as records, one for one and in the order of the document.  Each
    record has the cleaned title of its entry or of [No Title], the
    cleaned summary, else description, else [No Description], the link or
    [No URL], the normalised publication date, else update date, else
    [Unknown], and the language detected in the title, a space and the
    description. *)
Theorem parse_rss_feed_in_document_order (fi : feed_info)
    (log : list log_entry) (feed : parsed_feed) :
  feedparser_parse (fi_url fi) = Normal feed -> bozo feed = false ->
  exists news_items,
    parse_rss_feed feedparser_parse strptime detect_with os_entropy fi log
    = (Normal news_items,
       log ++ [mkLog INFO (parsed_msg fi (len (entries feed)))])
    /\ Forall2 (record_of_entry strptime detect_with fi) (entries feed) news_items.
Proof.
  intros Hfetch Hbozo. unfold parse_rss_feed, parse_rss_feed_try.
  rewrite Hfetch, Hbozo.
  destruct (parse_entries_in_order fi (entries feed) []) as (items & -> & Hall).
  cbn [app]. exists items. split; [|assumption].
  unfold len. now rewrite (Forall2_length Hall).
Qed.

End Entries.

Lemma parse_rss_feed_in_document_order_witness :
  exists news_items,
    parse_rss_feed sample_feedparser_parse sample_strptime sample_detect_with
      (fun _ => 0) sample_feed_a []
    = (Normal news_items,
       [] ++ [mkLog INFO (parsed_msg sample_feed_a 2)])
    /\ Forall2 (record_of_entry sample_strptime sample_detect_with sample_feed_a)
         [sample_entry; sample_entry] news_items.
Proof.
  exact (parse_rss_feed_in_document_order sample_feedparser_parse
           sample_strptime sample_detect_with (fun _ => 0)
           sample_strptime_raises sample_feed_a []
           (mkParsed false [] [sample_entry; sample_entry]) eq_refl eq_refl).
Defined.
